(** * Verification of [functions/_middleware.js]

    A shallow embedding of the Cloudflare Pages middleware that proxies
    repository look-ups to the GitHub REST API, followed by the theorems
    that settle the properties stated for it.

    - Part I    JavaScript strings: the [String.prototype] methods the
                program calls, and its two regular expressions.
    - Part II   JavaScript values, property reads, truthiness, [ToString].
    - Part III  The asynchronous effect: [fetch] against an upstream
                oracle, exceptions, the trace of requests issued.
    - Part IV   [getRepoInfo] and [onRequest], line by line.
    - Part V    Lemmas and theorems. *)

From Stdlib Require Import String Ascii List Bool NArith Arith Lia DecimalString.
Import ListNotations.

#[local] Set Warnings "-register-all".
Local Open Scope list_scope.
Local Open Scope string_scope.

(* ================================================================= *)
(** * Part I. Strings *)

(** A JavaScript string is a sequence of UTF-16 code units.  Every
    pattern the program searches for is ASCII and no operation below
    inspects a unit beyond comparing it with a pattern unit, so a string
    is embedded as a [string] of units. *)

(** [s.startsWith(p)]: used to express a regular expression, or a
    search string, tried at one position. *)
Fixpoint starts_with (p s : string) : bool :=
  match p, s with
  | EmptyString, _ => true
  | String a p', String b s' => Ascii.eqb a b && starts_with p' s'
  | String _ _, EmptyString => false
  end.

(** What follows [p] when [s] starts with it. *)
Fixpoint strip_prefix (p s : string) : option string :=
  match p, s with
  | EmptyString, _ => Some s
  | String a p', String b s' =>
      if Ascii.eqb a b then strip_prefix p' s' else None
  | String _ _, EmptyString => None
  end.

(** [s.includes(p)]: [p] occurs at some position of [s]. *)
Fixpoint includes (p s : string) : bool :=
  starts_with p s ||
  match s with
  | EmptyString => false
  | String _ s' => includes p s'
  end.

(** The regular expression [/https?:\/\/github\.com\//] tried at the
    head of [s]; the result is what follows the match.  [s?] is greedy:
    the branch with the [s] is tried first and the matcher backtracks to
    the branch without it. *)
Definition match_github_url (s : string) : option string :=
  match strip_prefix "http" s with
  | None => None
  | Some r =>
      match strip_prefix "s" r with
      | Some r' =>
          match strip_prefix "://github.com/" r' with
          | Some t => Some t
          | None => strip_prefix "://github.com/" r
          end
      | None => strip_prefix "://github.com/" r
      end
  end.

(** [s.replace(/https?:\/\/github\.com\//, '')]: the expression has no
    [g] flag and no anchor, so the leftmost match, wherever it starts,
    is removed, and nothing else. *)
Fixpoint replace_github_url (s : string) : string :=
  match match_github_url s with
  | Some t => t
  | None =>
      match s with
      | EmptyString => EmptyString
      | String c s' => String c (replace_github_url s')
      end
  end.

(** [s.replace(/P$/, '')] for a literal [P]: without the [m] flag [$]
    matches at the end of the input only, so the leftmost match is the
    position from which the rest of [s] is exactly [P]. *)
Fixpoint replace_at_end (p s : string) : string :=
  if String.eqb s p then EmptyString
  else
    match s with
    | EmptyString => EmptyString
    | String c s' => String c (replace_at_end p s')
    end.

(** [s.endsWith(p)], the condition under which [replace_at_end] changes
    [s]. *)
Fixpoint ends_with (p s : string) : bool :=
  String.eqb s p ||
  match s with
  | EmptyString => false
  | String _ s' => ends_with p s'
  end.

(** [s.split(sep)[0]]: what precedes the first occurrence of [sep], the
    whole of [s] when there is none. *)
Fixpoint split_head (sep s : string) : string :=
  if starts_with sep s then EmptyString
  else
    match s with
    | EmptyString => EmptyString
    | String c s' => String c (split_head sep s')
    end.

(** Membership of a code unit, to speak of path segments. *)
Fixpoint mem_char (c : ascii) (s : string) : bool :=
  match s with
  | EmptyString => false
  | String d s' => Ascii.eqb c d || mem_char c s'
  end.

(** The number of occurrences of a code unit. *)
Fixpoint count_char (c : ascii) (s : string) : nat :=
  match s with
  | EmptyString => 0
  | String d s' => (if Ascii.eqb c d then 1 else 0) + count_char c s'
  end.

(** ** The normalizer: lines 22-33 of [getRepoInfo] *)

(** Lines 23-25. *)
Definition strip_github_url (repoPath : string) : string :=
  if includes "github.com/" repoPath then replace_github_url repoPath
  else repoPath.

(** Line 28: [.replace(/\.git$/, '').replace(/\/$/, '')]. *)
Definition strip_suffixes (repoPath : string) : string :=
  replace_at_end "/" (replace_at_end ".git" repoPath).

(** Lines 31-33. *)
Definition cut_tree (repoPath : string) : string :=
  if includes "/tree/" repoPath then split_head "/tree/" repoPath
  else repoPath.

Definition normalize (repoFullName : string) : string :=
  cut_tree (strip_suffixes (strip_github_url repoFullName)).

(* ================================================================= *)
(** * Part II. Values *)

(** The values the program handles: what [JSON.parse] builds, plus
    [undefined].  A Number is carried as the text [Number::toString]
    gives it ([0] and [-0] coincide there, and nothing the program does
    tells them apart).  An object is the list of its own enumerable
    properties. *)
Inductive value : Type :=
| VUndefined
| VNull
| VBool (b : bool)
| VNum (text : string)
| VStr (s : string)
| VArr (elems : list value)
| VObj (props : list (string * value)).

(** An [Error] object as far as the program looks at it. *)
Record js_error : Type := { error_name : string; message : string }.

Definition Error (msg : string) : js_error :=
  {| error_name := "Error"; message := msg |}.

Definition TypeError (msg : string) : js_error :=
  {| error_name := "TypeError"; message := msg |}.

(** [ToBoolean]. *)
Definition truthy (v : value) : bool :=
  match v with
  | VUndefined | VNull => false
  | VBool b => b
  | VNum t => negb (t =? "0") && negb (t =? "NaN")
  | VStr s => negb (s =? "")
  | VArr _ | VObj _ => true
  end.

(** [a || b]. *)
Definition or_else (a b : value) : value := if truthy a then a else b.

Definition is_nullish (v : value) : bool :=
  match v with
  | VUndefined | VNull => true
  | _ => false
  end.

(** [Array.isArray]. *)
Definition is_array (v : value) : bool :=
  match v with
  | VArr _ => true
  | _ => false
  end.

Fixpoint own_property (k : string) (props : list (string * value)) : option value :=
  match props with
  | [] => None
  | (k', v) :: rest => if k' =? k then Some v else own_property k rest
  end.

(** [ToString], as template literals and property keys apply it: the
    text, or the exception it throws.  An object is converted by the
    first callable of its [toString] and [valueOf] that returns a
    primitive.  A value built by [JSON.parse] holds no function, so an
    object with an own [toString] property hides
    [Object.prototype.toString], [valueOf] (own or inherited) gives no
    primitive, and the conversion throws; without it the text is
    [[object Object]].  An array is joined with commas, [undefined] and
    [null] elements giving the empty text and the others their own
    conversion, the first exception of which is the array's. *)
Definition cannot_convert : js_error :=
  TypeError "Cannot convert object to primitive value".

Fixpoint to_string (v : value) : js_error + string :=
  match v with
  | VUndefined => inr "undefined"
  | VNull => inr "null"
  | VBool true => inr "true"
  | VBool false => inr "false"
  | VNum t => inr t
  | VStr s => inr s
  | VArr elems =>
      (fix join (l : list value) : js_error + string :=
         match l with
         | [] => inr ""
         | x :: rest =>
             match (if is_nullish x then inr "" else to_string x) with
             | inl e => inl e
             | inr first =>
                 match rest with
                 | [] => inr first
                 | _ :: _ =>
                     match join rest with
                     | inl e => inl e
                     | inr others => inr (first ++ "," ++ others)
                     end
                 end
             end
         end) elems
  | VObj props =>
      match own_property "toString" props with
      | Some _ => inl cannot_convert
      | None => inr "[object Object]"
      end
  end.

(** Whether [ToString] returns. *)
Definition converts (v : value) : bool :=
  match to_string v with
  | inr _ => true
  | inl _ => false
  end.

(** The property read [v.k] (and [v[0]] with [k = "0"]).  It throws on
    [undefined] and [null]; an object answers with its own property; an
    array and a string answer for index [0].  The names the program
    reads are [default_branch], [name], [full_name], [description],
    [html_url], [stargazers_count], [forks_count], [updated_at],
    [owner], [login], [avatar_url], [commit], [committer], [date],
    [message], [repos] and [0]: none is defined on a built-in
    prototype, so a missing own property reads as [undefined]. *)
Definition get (v : value) (k : string) : js_error + value :=
  match v with
  | VUndefined =>
      inl (TypeError ("Cannot read properties of undefined (reading '" ++ k ++ "')"))
  | VNull =>
      inl (TypeError ("Cannot read properties of null (reading '" ++ k ++ "')"))
  | VObj props =>
      inr (match own_property k props with
           | Some x => x
           | None => VUndefined
           end)
  | VArr elems => inr (if k =? "0" then nth 0 elems VUndefined else VUndefined)
  | VStr s =>
      inr (if k =? "0"
           then match s with
                | EmptyString => VUndefined
                | String c _ => VStr (String c EmptyString)
                end
           else VUndefined)
  | VBool _ | VNum _ => inr VUndefined
  end.

(** The optional read [v?.k]. *)
Definition opt_get (v : value) (k : string) : value :=
  if is_nullish v then VUndefined
  else match get v k with
       | inr x => x
       | inl _ => VUndefined
       end.

(** An ordinary object under construction by assignment: its own
    properties in insertion order and its prototype, [None] standing
    for the initial [Object.prototype]. *)
Record js_object : Type := { own : list (string * value); proto : option value }.

Definition empty_object : js_object := {| own := []; proto := None |}.

Fixpoint set_own (k : string) (v : value) (props : list (string * value))
  : list (string * value) :=
  match props with
  | [] => [(k, v)]
  | (k', v') :: rest =>
      if k' =? k then (k', v) :: rest else (k', v') :: set_own k v rest
  end.

(** Whether [o.__proto__ = v] reaches the accessor of
    [Object.prototype]: it does unless a data property of that name is
    met first, on [o] itself or on the object that replaced its
    prototype, or the prototype is [null]. *)
Definition reaches_proto_setter (o : js_object) : bool :=
  match own_property "__proto__" (own o), proto o with
  | Some _, _ => false
  | None, Some VNull => false
  | None, Some (VObj props) =>
      match own_property "__proto__" props with
      | Some _ => false
      | None => true
      end
  | None, _ => true
  end.

(** The assignment [o[key] = v].  The key is converted with [ToString],
    which may throw.  Every name but [__proto__] is, on
    [Object.prototype] and on the records [getRepoInfo] returns, absent
    or a writable data property, so the assignment creates or updates
    an own property.  [__proto__] is an accessor of [Object.prototype]:
    when the assignment reaches it, its setter replaces the prototype
    if [v] is an object or [null] and does nothing otherwise, and no
    own property appears. *)
Definition assign (o : js_object) (key v : value) : js_error + js_object :=
  match to_string key with
  | inl e => inl e
  | inr k =>
      inr (if (k =? "__proto__") && reaches_proto_setter o
           then match v with
                | VObj _ | VArr _ | VNull => {| own := own o; proto := Some v |}
                | _ => o
                end
           else {| own := set_own k v (own o); proto := proto o |})
  end.

(** The members [JSON.stringify] writes for an object: its own
    enumerable properties whose value is not [undefined]. *)
Fixpoint json_members (props : list (string * value)) : list (string * value) :=
  match props with
  | [] => []
  | (k, VUndefined) :: rest => json_members rest
  | kv :: rest => kv :: json_members rest
  end.

(* ================================================================= *)
(** * Part III. Asynchronous computations *)

(** A request as [fetch] receives it: the URL as the text handed over,
    before any parsing of it, and the headers (the method is always
    GET). *)
Record fetch_request : Type := { url : string; headers : list (string * string) }.

(** The requests one computation issued, oldest first. *)
Definition trace : Type := list fetch_request.

(** A [Response] of the upstream: its status and what [.json()]
    settles to. *)
Record fetch_response : Type := { status : N; json : js_error + value }.

(** [Response.ok]: the status is in the range 200-299. *)
Definition ok (r : fetch_response) : bool :=
  ((200 <=? status r) && (status r <=? 299))%N.

(** What the network answers to each request: a rejection of [fetch] or
    a response.  Every request is answered: a call that never settles
    is outside this model. *)
Definition upstream : Type := fetch_request -> js_error + fetch_response.

Inductive outcome (A : Type) : Type :=
| Resolved (a : A)
| Rejected (e : js_error).
Arguments Resolved {A} a.
Arguments Rejected {A} e.

(** An [async] function body: run against an upstream, it settles and
    leaves the list of the requests it issued, oldest first. *)
Definition async (A : Type) : Type := upstream -> outcome A * trace.

Definition ret {A : Type} (a : A) : async A := fun _ => (Resolved a, []).

Definition throw {A : Type} (e : js_error) : async A := fun _ => (Rejected e, []).

Definition bind {A B : Type} (m : async A) (k : A -> async B) : async B :=
  fun up =>
    match m up with
    | (Resolved a, t1) => let (r, t2) := k a up in (r, (t1 ++ t2)%list)
    | (Rejected e, t1) => (Rejected e, t1)
    end.

Notation "x <- m ;; k" := (bind m (fun x => k))
  (at level 61, m at next level, right associativity).

(** A synchronous step that returns or throws. *)
Definition lift {A : Type} (r : js_error + A) : async A :=
  match r with
  | inl e => throw e
  | inr a => ret a
  end.

(** [await fetch(url, {headers})]. *)
Definition fetch (r : fetch_request) : async fetch_response :=
  fun up =>
    (match up r with
     | inl e => Rejected e
     | inr resp => Resolved resp
     end, [r]).

(** [try { body } catch (error) { handler }]. *)
Definition try_catch {A : Type} (body : async A) (handler : js_error -> async A)
  : async A :=
  fun up =>
    match body up with
    | (Resolved a, t1) => (Resolved a, t1)
    | (Rejected e, t1) => let (r, t2) := handler e up in (r, (t1 ++ t2)%list)
    end.

(** [Promise.all]: the results in order, or a rejection of one of the
    promises (the first by index here; which one wins the race is not
    modelled). *)
Fixpoint promise_all {A : Type} (l : list (outcome A)) : outcome (list A) :=
  match l with
  | [] => Resolved []
  | Rejected e :: _ => Rejected e
  | Resolved a :: rest =>
      match promise_all rest with
      | Resolved r => Resolved (a :: r)
      | Rejected e => Rejected e
      end
  end.

(** A status in a template literal. *)
Definition N_to_string (n : N) : string := NilZero.string_of_uint (N.to_uint n).

(* ================================================================= *)
(** * Part IV. The program *)

(** Lines 7-12. *)
Definition CACHE_TIME : N := 60 * 60.
Definition CACHE_CONTROL : string := "public, max-age=" ++ N_to_string CACHE_TIME.
Definition GITHUB_API_BASE : string := "https://api.github.com".
Definition USER_AGENT : string := "YackSuite-Tool-Status-Checker".

(** ** [getRepoInfo], lines 19-89 *)

(** Lines 22-33 on whatever value the caller passed.  Only a string has
    both [includes] and [replace]; an array has [includes] alone, so
    line 24 or line 28 throws on it; every other value throws on
    line 23. *)
Definition normalize_ref (repoFullName : value) : js_error + string :=
  match repoFullName with
  | VStr s => inr (normalize s)
  | VUndefined =>
      inl (TypeError "Cannot read properties of undefined (reading 'includes')")
  | VNull =>
      inl (TypeError "Cannot read properties of null (reading 'includes')")
  | VArr _ => inl (TypeError "repoPath.replace is not a function")
  | VBool _ | VNum _ | VObj _ =>
      inl (TypeError "repoPath.includes is not a function")
  end.

(** The [headers] literal of lines 37-41 and 52-56, [token] being the
    text the template literal made of [githubToken]. *)
Definition api_headers (token : string) : list (string * string) :=
  [ ("User-Agent", USER_AGENT);
    ("Accept", "application/vnd.github.v3+json");
    ("Authorization", "Bearer " ++ token) ].

(** The request of line 36. *)
Definition repo_request (repoPath token : string) : fetch_request :=
  {| url := GITHUB_API_BASE ++ "/repos/" ++ repoPath;
     headers := api_headers token |}.

(** The request of line 51, [sha] being the text the template literal
    made of [repoData.default_branch]. *)
Definition commits_request (repoPath sha token : string) : fetch_request :=
  {| url := GITHUB_API_BASE ++ "/repos/" ++ repoPath ++
            "/commits?per_page=1&sha=" ++ sha;
     headers := api_headers token |}.

(** A credential as the routes have it: the string of
    [env.GITHUB_TOKEN], or [undefined] when there is none. *)
Definition credential (githubToken : option string) : value :=
  match githubToken with
  | Some token => VStr token
  | None => VUndefined
  end.

(** The text the template literal of lines 40 and 55 makes of it. *)
Definition credential_text (githubToken : option string) : string :=
  match githubToken with
  | Some token => token
  | None => "undefined"
  end.

(** The body of the [try], lines 21-80. *)
Definition getRepoInfo_try (repoFullName githubToken : value) : async value :=
  repoPath <- lift (normalize_ref repoFullName) ;;
  (* lines 36-42: the arguments of [fetch], the template of line 40 *)
  token <- lift (to_string githubToken) ;;
  repoResponse <- fetch (repo_request repoPath token) ;;
  _ <- (if negb (ok repoResponse)
        then throw (Error ("GitHub API error: " ++ N_to_string (status repoResponse)))
        else ret tt) ;;
  repoData <- lift (json repoResponse) ;;
  (* lines 51-57: the template of line 51, then the one of line 55 *)
  default_branch <- lift (get repoData "default_branch") ;;
  sha <- lift (to_string default_branch) ;;
  token <- lift (to_string githubToken) ;;
  commitsResponse <- fetch (commits_request repoPath sha token) ;;
  _ <- (if negb (ok commitsResponse)
        then throw (Error ("GitHub API error fetching commits: " ++
                           N_to_string (status commitsResponse)))
        else ret tt) ;;
  commits <- lift (json commitsResponse) ;;
  name <- lift (get repoData "name") ;;
  full_name <- lift (get repoData "full_name") ;;
  description <- lift (get repoData "description") ;;
  html_url <- lift (get repoData "html_url") ;;
  stargazers_count <- lift (get repoData "stargazers_count") ;;
  forks_count <- lift (get repoData "forks_count") ;;
  (* line 72 *)
  first <- lift (get commits "0") ;;
  last_updated <-
    (let date := opt_get (opt_get (opt_get first "commit") "committer") "date" in
     if truthy date then ret date else lift (get repoData "updated_at")) ;;
  (* line 73 *)
  first <- lift (get commits "0") ;;
  last_commit_message <-
    ret (or_else (opt_get (opt_get first "commit") "message") (VStr "")) ;;
  (* line 74 *)
  first <- lift (get commits "0") ;;
  last_commit_url <- ret (or_else (opt_get first "html_url") (VStr "")) ;;
  (* lines 75-79 *)
  owner <- lift (get repoData "owner") ;;
  login <- lift (get owner "login") ;;
  owner <- lift (get repoData "owner") ;;
  avatar_url <- lift (get owner "avatar_url") ;;
  owner <- lift (get repoData "owner") ;;
  owner_url <- lift (get owner "html_url") ;;
  ret (VObj [ ("name", name);
              ("full_name", full_name);
              ("description", description);
              ("url", html_url);
              ("stars", stargazers_count);
              ("forks", forks_count);
              ("last_updated", last_updated);
              ("last_commit_message", last_commit_message);
              ("last_commit_url", last_commit_url);
              ("owner", VObj [ ("login", login);
                               ("avatar_url", avatar_url);
                               ("url", owner_url) ]) ]).

(** The record of lines 83-87. *)
Definition degraded (repoFullName : value) (msg : string) : value :=
  VObj [ ("name", repoFullName); ("error", VStr msg); ("last_updated", VNull) ].

(** Lines 81-88.  The first argument of [console.error] is a template
    literal that converts [repoFullName] to text, and so may throw, out
    of the [catch]; the logging itself has no part in the result. *)
Definition getRepoInfo_catch (repoFullName : value) (error : js_error) : async value :=
  _ <- lift (to_string repoFullName) ;;
  ret (degraded repoFullName (message error)).

Definition getRepoInfo (repoFullName githubToken : value) : async value :=
  try_catch (getRepoInfo_try repoFullName githubToken)
            (getRepoInfo_catch repoFullName).

(** ** [onRequest], lines 94-185 *)

(** The inbound request as the handler reads it: [url.pathname],
    [request.method], the pairs of [url.searchParams], and what
    [request.json()] settles to. *)
Record http_request : Type :=
  { pathname : string;
    method : string;
    searchParams : list (string * string);
    body : js_error + value }.

(** [env]: [GITHUB_TOKEN] is a string, or [undefined] when the binding
    is not configured. *)
Record js_env : Type := { GITHUB_TOKEN : value }.

(** [new Response(JSON.stringify(payload), {status, headers})]; the
    status is 200 when the options give none. *)
Record response : Type :=
  { resp_status : N;
    resp_headers : list (string * string);
    payload : value }.

Inductive handled : Type :=
| Respond (r : response)
| Next.

(** [url.searchParams.get(name)]: the first value under [name], [null]
    ([None]) when there is none. *)
Fixpoint searchParams_get (name : string) (params : list (string * string))
  : option string :=
  match params with
  | [] => None
  | (k, v) :: rest => if k =? name then Some v else searchParams_get name rest
  end.

(** [const { repos } = body], line 114. *)
Definition destructure (v : value) (k : string) : js_error + value :=
  match v with
  | VUndefined =>
      inl (TypeError ("Cannot destructure property '" ++ k ++
                      "' of 'body' as it is undefined."))
  | VNull =>
      inl (TypeError ("Cannot destructure property '" ++ k ++
                      "' of 'body' as it is null."))
  | _ => get v k
  end.

Definition elements (v : value) : list value :=
  match v with
  | VArr l => l
  | _ => []
  end.

(** Line 126: one call of [getRepoInfo] per element.  The calls run
    concurrently, each against the upstream as that call meets it:
    [world index] is the upstream of the call for [repos[index]]. *)
Fixpoint launch (world : nat -> upstream) (index : nat) (repos : list value)
  (githubToken : value) : list (outcome value * trace) :=
  match repos with
  | [] => []
  | repo :: rest =>
      getRepoInfo repo githubToken (world index)
      :: launch world (S index) rest githubToken
  end.

(** The assignments of a [forEach]: the first one to throw ends it. *)
Fixpoint assign_all (repoInfoMap : js_object) (entries : list (value * value))
  : js_error + js_object :=
  match entries with
  | [] => inr repoInfoMap
  | (repo, info) :: rest =>
      match assign repoInfoMap repo info with
      | inl e => inl e
      | inr repoInfoMap' => assign_all repoInfoMap' rest
      end
  end.

(** Lines 130-133. *)
Definition build_map (repos repoInfoResults : list value) : js_error + js_object :=
  assign_all empty_object (combine repos repoInfoResults).

(** The body of the [try] of the bulk route, lines 102-140, with the
    traces of the calls it launched. *)
Definition repos_info_try (request : http_request) (githubToken : value)
  (world : nat -> upstream) : outcome response * list trace :=
  if negb (method request =? "POST") then
    (Resolved {| resp_status := 405;
                 resp_headers := [ ("Content-Type", "application/json");
                                   ("Allow", "POST") ];
                 payload := VObj [ ("error", VStr "Method not allowed. Use POST.") ] |},
     [])
  else
    match body request with
    | inl e => (Rejected e, [])
    | inr body =>
        match destructure body "repos" with
        | inl e => (Rejected e, [])
        | inr repos =>
            if negb (truthy repos) || negb (is_array repos) then
              (Resolved {| resp_status := 400;
                           resp_headers := [ ("Content-Type", "application/json") ];
                           payload := VObj [ ("error",
                             VStr "Invalid request. Provide an array of repo URLs.") ] |},
               [])
            else
              let runs := launch world 0 (elements repos) githubToken in
              match promise_all (map fst runs) with
              | Rejected e => (Rejected e, map snd runs)
              | Resolved repoInfoResults =>
                  match build_map (elements repos) repoInfoResults with
                  | inl e => (Rejected e, map snd runs)
                  | inr repoInfoMap =>
                      (Resolved {| resp_status := 200;
                                   resp_headers := [ ("Content-Type", "application/json");
                                                     ("Cache-Control", CACHE_CONTROL) ];
                                   payload := VObj (own repoInfoMap) |},
                       map snd runs)
                  end
              end
        end
    end.

(** The body of the [try] of the single route, lines 154-172. *)
Definition repo_info_try (request : http_request) (world : nat -> upstream)
  : outcome response * list trace :=
  let repoUrl := searchParams_get "repo" (searchParams request) in
  match repoUrl with
  | None | Some EmptyString =>
      (Resolved {| resp_status := 400;
                   resp_headers := [ ("Content-Type", "application/json") ];
                   payload := VObj [ ("error", VStr "Missing repo parameter") ] |},
       [])
  | Some repoUrl =>
      match getRepoInfo (VStr repoUrl) VUndefined (world 0) with
      | (Rejected e, t) => (Rejected e, [t])
      | (Resolved repoInfo, t) =>
          (Resolved {| resp_status := 200;
                       resp_headers := [ ("Content-Type", "application/json");
                                         ("Cache-Control", CACHE_CONTROL) ];
                       payload := repoInfo |},
           [t])
      end
  end.

(** The [catch] of both routes, lines 141-148 and 173-180. *)
Definition internal_error (error : js_error) : response :=
  {| resp_status := 500;
     resp_headers := [ ("Content-Type", "application/json") ];
     payload := VObj [ ("error", VStr (message error)) ] |}.

Definition settle (r : outcome response * list trace)
  : handled * list trace :=
  match r with
  | (Resolved resp, t) => (Respond resp, t)
  | (Rejected e, t) => (Respond (internal_error e), t)
  end.

(** [onRequest]: the response, or [Next] when the request goes to
    [next()], and the requests each call of [getRepoInfo] issued. *)
Definition onRequest (request : http_request) (env : js_env) (world : nat -> upstream)
  : handled * list trace :=
  let githubToken := GITHUB_TOKEN env in
  if pathname request =? "/api/repos-info" then
    settle (repos_info_try request githubToken world)
  else if pathname request =? "/api/repo-info" then
    settle (repo_info_try request world)
  else (Next, []).

(** Look-ups in what a response carries. *)
Fixpoint header (name : string) (hs : list (string * string)) : option string :=
  match hs with
  | [] => None
  | (k, v) :: rest => if k =? name then Some v else header name rest
  end.

Definition field (k : string) (v : value) : option value :=
  match v with
  | VObj props => own_property k props
  | _ => None
  end.

(** The shape of a full RepositoryInfo: the ten fields of lines 65-80,
    [owner] holding its three. *)
Definition keys (v : value) : list string :=
  match v with
  | VObj props => map fst props
  | _ => []
  end.

Definition is_object (v : value) : bool :=
  match v with
  | VObj _ => true
  | _ => false
  end.

Fixpoint same_names (a b : list string) : bool :=
  match a, b with
  | [], [] => true
  | x :: a', y :: b' => (x =? y) && same_names a' b'
  | _, _ => false
  end.

Definition same_keys (ks : list string) (v : value) : bool :=
  is_object v && same_names (keys v) ks.

Definition is_repository_info (v : value) : bool :=
  same_keys [ "name"; "full_name"; "description"; "url"; "stars"; "forks";
              "last_updated"; "last_commit_message"; "last_commit_url"; "owner" ] v
  && match field "owner" v with
     | Some o => same_keys [ "login"; "avatar_url"; "url" ] o
     | None => false
     end.

(** A property read that cannot throw: [undefined] when absent. *)
Definition read (k : string) (v : value) : value :=
  match field k v with
  | Some x => x
  | None => VUndefined
  end.


(** What a settled promise holds ([undefined] for a rejected one). *)
Definition resolved_value (o : outcome value) : value :=
  match o with
  | Resolved v => v
  | Rejected _ => VUndefined
  end.

(** The own properties after the assignments [m[k] = v] of a list of
    pairs, in order. *)
Definition set_all (m : list (string * value)) (entries : list (string * value))
  : list (string * value) :=
  fold_left (fun m entry => set_own (fst entry) (snd entry) m) entries m.

(** ** Sample inputs *)

(** An upstream that knows no repository. *)
Definition not_found : upstream :=
  fun _ => inr {| status := 404; json := inl (Error "Unexpected token") |}.

Definition sample_owner : value :=
  VObj [ ("login", VStr "octocat");
         ("avatar_url", VStr "https://github.com/images/error/octocat_happy.gif");
         ("html_url", VStr "https://github.com/octocat") ].

Definition sample_repo : value :=
  VObj [ ("name", VStr "Hello-World");
         ("full_name", VStr "octocat/Hello-World");
         ("owner", sample_owner);
         ("html_url", VStr "https://github.com/octocat/Hello-World");
         ("description", VNull);
         ("stargazers_count", VNum "80");
         ("forks_count", VNum "9");
         ("default_branch", VStr "master");
         ("updated_at", VStr "2011-01-26T19:14:43Z") ].

Definition sample_commits : list value :=
  [ VObj [ ("html_url", VStr "https://github.com/octocat/Hello-World/commit/6dcb09b");
           ("commit", VObj [ ("message", VStr "Fix all the bugs");
                             ("committer",
                              VObj [ ("name", VStr "Monalisa Octocat");
                                     ("date", VStr "2011-04-14T16:00:49Z") ]) ]) ] ].

(** An upstream that answers every metadata request with [sample_repo]
    and every commit-list request with [commits]. *)
Definition sample_upstream (commits : list value) : upstream :=
  fun r =>
    if includes "/commits?" (url r)
    then inr {| status := 200; json := inr (VArr commits) |}
    else inr {| status := 200; json := inr sample_repo |}.

Definition get_request (path : string) (params : list (string * string))
  : http_request :=
  {| pathname := path;
     method := "GET";
     searchParams := params;
     body := inl (TypeError "Unexpected end of JSON input") |}.

Definition post_request (path : string) (parsed : value) : http_request :=
  {| pathname := path; method := "POST"; searchParams := []; body := inr parsed |}.

(** The record of lines 65-80 when no read of it throws, that is for
    metadata and commits other than [undefined] and [null] and an owner
    likewise. *)
Definition assembled_record (repoData commits : value) : value :=
  let first := opt_get commits "0" in
  let date := opt_get (opt_get (opt_get first "commit") "committer") "date" in
  let owner := opt_get repoData "owner" in
  VObj [ ("name", opt_get repoData "name");
         ("full_name", opt_get repoData "full_name");
         ("description", opt_get repoData "description");
         ("url", opt_get repoData "html_url");
         ("stars", opt_get repoData "stargazers_count");
         ("forks", opt_get repoData "forks_count");
         ("last_updated",
          if truthy date then date else opt_get repoData "updated_at");
         ("last_commit_message",
          or_else (opt_get (opt_get first "commit") "message") (VStr ""));
         ("last_commit_url", or_else (opt_get first "html_url") (VStr ""));
         ("owner", VObj [ ("login", opt_get owner "login");
                          ("avatar_url", opt_get owner "avatar_url");
                          ("url", opt_get owner "html_url") ]) ].

(** More sample upstreams: no network; a repository without commits,
    for which the commit list is refused; metadata without an owner. *)
Definition unreachable : upstream :=
  fun _ => inl (TypeError "fetch failed").

Definition empty_repository : upstream :=
  fun r =>
    if includes "/commits?" (url r)
    then inr {| status := 409; json := inr (VObj [ ("message", VStr "Git Repository is empty.") ]) |}
    else inr {| status := 200; json := inr sample_repo |}.

Definition commits_unreachable : upstream :=
  fun r =>
    if includes "/commits?" (url r)
    then inl (TypeError "fetch failed")
    else inr {| status := 200; json := inr sample_repo |}.

(** A first commit whose committer date is the empty text. *)
Definition undated_commits : list value :=
  [ VObj [ ("commit", VObj [ ("message", VStr "Initial commit");
                             ("committer", VObj [ ("date", VStr "") ]) ]) ] ].

Definition garbled : upstream :=
  fun _ => inr {| status := 200; json := inl (Error "Unexpected token < in JSON") |}.

Definition ownerless : upstream :=
  fun r =>
    if includes "/commits?" (url r)
    then inr {| status := 200; json := inr (VArr sample_commits) |}
    else inr {| status := 200;
                json := inr (VObj [ ("name", VStr "Hello-World");
                                    ("default_branch", VStr "master") ]) |}.

(** Metadata whose [default_branch] is an object with a property
    [toString] of its own, which no template literal can turn into
    text. *)
Definition odd_branch : upstream :=
  fun _ =>
    inr {| status := 200;
           json := inr (VObj [ ("name", VStr "Hello-World");
                               ("default_branch",
                                VObj [ ("toString", VNum "1") ]) ]) |}.

(* ================================================================= *)
(** * Part V. Lemmas and theorems *)

(** ** Strings *)

Section StringFacts.

Lemma append_assoc (a b c : string) : (a ++ b) ++ c = a ++ b ++ c.
Proof. induction a; simpl; congruence. Qed.

Lemma append_nil_r (a : string) : a ++ "" = a.
Proof. induction a; simpl; congruence. Qed.

Lemma length_append (a b : string) :
  String.length (a ++ b) = String.length a + String.length b.
Proof. induction a; simpl; congruence. Qed.

Lemma strip_prefix_append (p t : string) : strip_prefix p (p ++ t) = Some t.
Proof.
  induction p as [|c p IH]; simpl; [reflexivity|].
  now rewrite Ascii.eqb_refl.
Qed.

Lemma strip_prefix_Some (p s t : string) : strip_prefix p s = Some t -> s = p ++ t.
Proof.
  revert s; induction p as [|c p IH]; intros s H; simpl in *.
  - congruence.
  - destruct s as [|d s]; [discriminate|].
    destruct (Ascii.eqb_spec c d) as [->|]; [|discriminate].
    f_equal; auto.
Qed.

Lemma starts_with_append (p t : string) : starts_with p (p ++ t) = true.
Proof.
  induction p as [|c p IH]; simpl; [reflexivity|].
  now rewrite Ascii.eqb_refl.
Qed.

Lemma starts_with_true (p s : string) :
  starts_with p s = true -> exists t, s = p ++ t.
Proof.
  revert s; induction p as [|c p IH]; intros s H; simpl in *.
  - now exists s.
  - destruct s as [|d s]; [discriminate|].
    apply andb_true_iff in H as [Hc Hp].
    apply Ascii.eqb_eq in Hc as ->.
    destruct (IH _ Hp) as [t ->]. now exists t.
Qed.

(** A pattern that starts with [c] does not start a string whose first
    unit is another one. *)
Lemma starts_with_other (c d : ascii) (p s : string) :
  c <> d -> starts_with (String c p) (String d s) = false.
Proof. intros H; simpl. apply Ascii.eqb_neq in H. now rewrite H. Qed.

Lemma includes_head (p s : string) : starts_with p s = true -> includes p s = true.
Proof. intros H. destruct s; simpl; now rewrite H. Qed.

Lemma includes_append (p a b : string) : includes p (a ++ p ++ b) = true.
Proof.
  induction a as [|c a IH].
  - change ("" ++ p ++ b) with (p ++ b).
    apply includes_head, starts_with_append.
  - cbn [append includes]. rewrite IH. apply orb_true_r.
Qed.

Lemma includes_true (p s : string) :
  includes p s = true -> exists a b, s = a ++ p ++ b.
Proof.
  induction s as [|c s IH]; simpl; intros H.
  - rewrite orb_false_r in H. destruct (starts_with_true _ _ H) as [t ->].
    now exists "", t.
  - apply orb_true_iff in H as [H|H].
    + destruct (starts_with_true _ _ H) as [t ->]. now exists "", t.
    + destruct (IH H) as (a & b & ->). now exists (String c a), b.
Qed.

Lemma count_char_append (c : ascii) (a b : string) :
  count_char c (a ++ b) = count_char c a + count_char c b.
Proof. induction a; simpl; lia. Qed.

Lemma mem_char_count (c : ascii) (s : string) :
  mem_char c s = false <-> count_char c s = 0.
Proof.
  induction s as [|d s IH]; simpl; [tauto|].
  destruct (Ascii.eqb c d); simpl; [split; [discriminate|lia]|exact IH].
Qed.

Lemma mem_char_append (c : ascii) (a b : string) :
  mem_char c (a ++ b) = mem_char c a || mem_char c b.
Proof. induction a; simpl; [reflexivity|]. now rewrite IHa, orb_assoc. Qed.

(** ** [replace(/P$/, '')] *)

Lemma replace_at_end_append (p s : string) : replace_at_end p (s ++ p) = s.
Proof.
  induction s as [|c s IH]; cbn [append].
  - destruct p; cbn [replace_at_end]; now rewrite String.eqb_refl.
  - cbn [replace_at_end].
    destruct (String.eqb_spec (String c (s ++ p)) p) as [E|_].
    + apply (f_equal String.length) in E. simpl in E. rewrite length_append in E. lia.
    + now rewrite IH.
Qed.

Lemma replace_at_end_id (p s : string) :
  ends_with p s = false -> replace_at_end p s = s.
Proof.
  induction s as [|c s IH]; cbn [ends_with replace_at_end]; intros H.
  - rewrite orb_false_r in H. now rewrite H.
  - apply orb_false_iff in H as [H1 H2]. now rewrite H1, IH.
Qed.

Lemma ends_with_true (p s : string) :
  ends_with p s = true <-> exists a, s = a ++ p.
Proof.
  split.
  - induction s as [|c s IH]; cbn [ends_with]; intros H.
    + rewrite orb_false_r in H. apply String.eqb_eq in H. now exists "".
    + apply orb_true_iff in H as [H|H].
      * apply String.eqb_eq in H. exists "". now rewrite H.
      * destruct (IH H) as [a ->]. now exists (String c a).
  - intros [a ->]. induction a as [|c a IH]; cbn [append].
    + destruct p; cbn [ends_with]; now rewrite String.eqb_refl.
    + cbn [ends_with]. rewrite IH. apply orb_true_r.
Qed.

Lemma replace_at_end_empty (p s : string) :
  replace_at_end p s = "" -> s = "" \/ s = p.
Proof.
  destruct s as [|c s]; [now left|]. cbn [replace_at_end].
  destruct (String.eqb_spec (String c s) p); [now right|discriminate].
Qed.

(** A unit that [p] does not contain separates what [/P$/] can
    match from what is before it. *)
Lemma neq_of_mem_char (c : ascii) (s p : string) :
  mem_char c s = true -> mem_char c p = false -> (s =? p) = false.
Proof. intros Hs Hp. apply String.eqb_neq. congruence. Qed.

Lemma mem_char_middle (c : ascii) (a b : string) :
  mem_char c (a ++ String c b) = true.
Proof.
  rewrite mem_char_append. cbn [mem_char].
  rewrite Ascii.eqb_refl. apply orb_true_r.
Qed.

Lemma replace_at_end_beyond (c : ascii) (p a b : string) :
  mem_char c p = false ->
  replace_at_end p (a ++ String c b) = a ++ String c (replace_at_end p b).
Proof.
  intros Hp. induction a as [|d a IH]; cbn [append replace_at_end].
  - now rewrite (neq_of_mem_char c (String c b) p (mem_char_middle c "" b) Hp).
  - now rewrite (neq_of_mem_char c (String d (a ++ String c b)) p
                   (mem_char_middle c (String d a) b) Hp), IH.
Qed.

Lemma ends_with_beyond (c : ascii) (p a b : string) :
  mem_char c p = false -> ends_with p (a ++ String c b) = ends_with p b.
Proof.
  intros Hp. induction a as [|d a IH]; cbn [append ends_with].
  - now rewrite (neq_of_mem_char c (String c b) p (mem_char_middle c "" b) Hp).
  - now rewrite (neq_of_mem_char c (String d (a ++ String c b)) p
                   (mem_char_middle c (String d a) b) Hp), IH.
Qed.

(** [/\/$/] looks at the last unit only. *)
Lemma replace_slash_end_append (a b : string) :
  b <> "" -> replace_at_end "/" (a ++ b) = a ++ replace_at_end "/" b.
Proof.
  intros Hb. induction a as [|d a IH]; [reflexivity|].
  cbn [append replace_at_end]. rewrite IH.
  destruct (String.eqb_spec (String d (a ++ b)) "/") as [E|_]; [|reflexivity].
  exfalso. injection E as _ E. destruct a; simpl in E; [auto|discriminate].
Qed.

Lemma ends_with_char (c : ascii) (s : string) :
  mem_char c s = false -> ends_with (String c "") s = false.
Proof.
  intros H. destruct (ends_with (String c "") s) eqn:E; [|reflexivity].
  apply ends_with_true in E as [a ->].
  rewrite mem_char_append in H. simpl in H.
  rewrite Ascii.eqb_refl, orb_true_r in H. discriminate.
Qed.

End StringFacts.

(** ** The normalizer *)

Section NormalizerFacts.

(** *** Step 1: [https?://github.com/] *)

Lemma match_github_url_scheme (s t : string) :
  match_github_url s = Some t -> includes "://" s = true.
Proof.
  unfold match_github_url.
  destruct (strip_prefix "http" s) as [r|] eqn:E1; [|discriminate].
  apply strip_prefix_Some in E1; subst s.
  assert (plain : strip_prefix "://github.com/" r = Some t ->
                  includes "://" ("http" ++ r) = true).
  { intros E. apply strip_prefix_Some in E; subst r. reflexivity. }
  destruct (strip_prefix "s" r) as [r'|] eqn:E2; [|exact plain].
  destruct (strip_prefix "://github.com/" r') as [t'|] eqn:E3; [|exact plain].
  intros _. apply strip_prefix_Some in E2, E3. subst r r'. reflexivity.
Qed.

Lemma includes_tail (p : string) (c : ascii) (s : string) :
  includes p (String c s) = false -> includes p s = false.
Proof. cbn [includes]. intros H. now apply orb_false_iff in H. Qed.

Lemma replace_github_url_id (s : string) :
  includes "://" s = false -> replace_github_url s = s.
Proof.
  induction s as [|c s IH]; intros H; [reflexivity|].
  cbn [replace_github_url].
  destruct (match_github_url (String c s)) as [t|] eqn:E.
  - apply match_github_url_scheme in E. congruence.
  - f_equal. eapply IH, includes_tail, H.
Qed.

Lemma strip_github_url_https (rest : string) :
  strip_github_url ("https://github.com/" ++ rest) = rest.
Proof. reflexivity. Qed.

Lemma strip_github_url_http (rest : string) :
  strip_github_url ("http://github.com/" ++ rest) = rest.
Proof. reflexivity. Qed.

Lemma strip_github_url_id (s : string) :
  includes "://" s = false -> strip_github_url s = s.
Proof.
  intros H. unfold strip_github_url.
  destruct (includes "github.com/" s); [now apply replace_github_url_id|reflexivity].
Qed.

(** *** Counting slashes *)

Lemma includes_count (c : ascii) (p s : string) :
  includes p s = true -> count_char c p <= count_char c s.
Proof.
  intros H. destruct (includes_true _ _ H) as (a & b & ->).
  rewrite !count_char_append. lia.
Qed.

Lemma includes_few (c : ascii) (p s : string) :
  count_char c s < count_char c p -> includes p s = false.
Proof.
  intros H. destruct (includes p s) eqn:E; [|reflexivity].
  apply (includes_count c) in E. lia.
Qed.

Variables OWNER NAME : string.
Hypothesis owner_segment : mem_char "/" OWNER = false.
Hypothesis name_segment : mem_char "/" NAME = false.

Lemma repo_one_slash : count_char "/" (OWNER ++ "/" ++ NAME) = 1.
Proof.
  rewrite !count_char_append.
  apply mem_char_count in owner_segment, name_segment.
  rewrite owner_segment, name_segment. reflexivity.
Qed.

Lemma repo_no_scheme : includes "://" (OWNER ++ "/" ++ NAME) = false.
Proof. apply (includes_few "/"). rewrite repo_one_slash. cbn. lia. Qed.

Lemma repo_no_tree : includes "/tree/" (OWNER ++ "/" ++ NAME) = false.
Proof. apply (includes_few "/"). rewrite repo_one_slash. cbn. lia. Qed.

(** *** Steps 2 and 3 on [OWNER/NAME] *)

Hypothesis name_not_empty : NAME <> "".

Lemma repo_strip_slash :
  replace_at_end "/" (OWNER ++ "/" ++ NAME) = OWNER ++ "/" ++ NAME.
Proof.
  rewrite <- append_assoc, replace_slash_end_append by assumption.
  now rewrite (replace_at_end_id "/" NAME), append_assoc by now apply ends_with_char.
Qed.

Lemma repo_strip_suffixes :
  ends_with ".git" NAME = false ->
  strip_suffixes (OWNER ++ "/" ++ NAME) = OWNER ++ "/" ++ NAME.
Proof.
  intros H. unfold strip_suffixes.
  change (OWNER ++ "/" ++ NAME) with (OWNER ++ String "/" NAME) at 1.
  rewrite replace_at_end_beyond by reflexivity.
  rewrite (replace_at_end_id ".git" NAME H). apply repo_strip_slash.
Qed.

Lemma repo_git_strip_suffixes :
  strip_suffixes ((OWNER ++ "/" ++ NAME) ++ ".git") = OWNER ++ "/" ++ NAME.
Proof.
  unfold strip_suffixes. rewrite replace_at_end_append. apply repo_strip_slash.
Qed.

Lemma repo_slash_strip_suffixes :
  strip_suffixes ((OWNER ++ "/" ++ NAME) ++ "/") = OWNER ++ "/" ++ NAME.
Proof.
  unfold strip_suffixes.
  rewrite (replace_at_end_id ".git").
  - apply replace_at_end_append.
  - change ((OWNER ++ "/" ++ NAME) ++ "/")
      with ((OWNER ++ "/" ++ NAME) ++ String "/" "").
    now rewrite ends_with_beyond.
Qed.

Lemma repo_cut_tree : cut_tree (OWNER ++ "/" ++ NAME) = OWNER ++ "/" ++ NAME.
Proof. unfold cut_tree. now rewrite repo_no_tree. Qed.

(** *** Step 4 on [OWNER/NAME/tree/...] *)

Lemma split_head_here (sep s : string) :
  starts_with sep s = true -> split_head sep s = "".
Proof. intros H. destruct s; cbn [split_head]; now rewrite H. Qed.

Lemma split_head_segment (s tl : string) :
  mem_char "/" s = false -> starts_with "/tree/" tl = true ->
  split_head "/tree/" (s ++ tl) = s.
Proof.
  intros H Htl. induction s as [|c s IH].
  - now apply split_head_here.
  - cbn [mem_char] in H. apply orb_false_iff in H as [Hc Hs].
    cbn [append split_head].
    rewrite starts_with_other by now apply Ascii.eqb_neq.
    now rewrite IH.
Qed.

(** The one name whose own [/tree/] the cut would find first. *)
Lemma name_then_tree (tl : string) :
  NAME <> "tree" -> starts_with "/" tl = true ->
  starts_with "tree/" (NAME ++ tl) = false.
Proof.
  intros Hname Htl.
  destruct (starts_with_true _ _ Htl) as [rest ->].
  change ("/" ++ rest) with (String "/" rest) in *.
  destruct (starts_with "tree/" (NAME ++ String "/" rest)) eqn:E; [|reflexivity].
  exfalso. apply Hname. clear Hname name_not_empty Htl.
  destruct NAME as [|c1 [|c2 [|c3 [|c4 [|c5 n]]]]];
    cbn [append starts_with mem_char] in E, name_segment;
    repeat match goal with
           | H : (_ && _) = true |- _ => apply andb_true_iff in H as [? H]
           | H : (_ || _) = false |- _ => apply orb_false_iff in H as [? H]
           | H : Ascii.eqb _ _ = true |- _ => apply Ascii.eqb_eq in H
           end;
    subst; try discriminate; try reflexivity.
Qed.

Lemma starts_with_shorter (c : ascii) (p s : string) :
  starts_with (String c p) s = true -> starts_with (String c "") s = true.
Proof.
  destruct s as [|d s]; cbn [starts_with]; [discriminate|].
  intros H. apply andb_true_iff in H as [-> _]. reflexivity.
Qed.

Lemma starts_with_same (c : ascii) (p s : string) :
  starts_with (String c p) (String c s) = starts_with p s.
Proof. cbn [starts_with]. now rewrite Ascii.eqb_refl. Qed.

Lemma repo_tree_split_head (tl : string) :
  NAME <> "tree" -> starts_with "/tree/" tl = true ->
  split_head "/tree/" ((OWNER ++ "/" ++ NAME) ++ tl) = OWNER ++ "/" ++ NAME.
Proof.
  intros Hname Htl. rewrite append_assoc.
  change (("/" ++ NAME) ++ tl) with (String "/" (NAME ++ tl)).
  clear name_not_empty. induction OWNER as [|c o IH].
  - cbn [append split_head]. rewrite starts_with_same.
    rewrite (name_then_tree tl Hname (starts_with_shorter _ _ _ Htl)).
    now rewrite split_head_segment.
  - cbn [mem_char] in owner_segment.
    apply orb_false_iff in owner_segment as [Hc Ho].
    cbn [append split_head].
    rewrite starts_with_other by now apply Ascii.eqb_neq.
    now rewrite (IH Ho).
Qed.

Lemma repo_tree_normalize (BRANCH : string) :
  NAME <> "tree" -> BRANCH <> "" -> BRANCH <> ".git" ->
  cut_tree (strip_suffixes ((OWNER ++ "/" ++ NAME) ++ "/tree/" ++ BRANCH))
  = OWNER ++ "/" ++ NAME.
Proof.
  intros Hname Hb1 Hb2. unfold strip_suffixes.
  change ((OWNER ++ "/" ++ NAME) ++ "/tree/" ++ BRANCH)
    with ((OWNER ++ "/" ++ NAME) ++ "/tree" ++ String "/" BRANCH).
  rewrite <- append_assoc, replace_at_end_beyond by reflexivity.
  rewrite replace_slash_end_append by discriminate.
  rewrite append_assoc.
  change ("/tree" ++ replace_at_end "/" (String "/" (replace_at_end ".git" BRANCH)))
    with ("/tree" ++ replace_at_end "/" ("/" ++ replace_at_end ".git" BRANCH)).
  assert (E : exists rest,
             replace_at_end "/" ("/" ++ replace_at_end ".git" BRANCH) = "/" ++ rest).
  { destruct (replace_at_end ".git" BRANCH) as [|c b] eqn:Eb.
    - destruct (replace_at_end_empty _ _ Eb); contradiction.
    - exists (replace_at_end "/" (String c b)).
      now rewrite (replace_slash_end_append "/" (String c b)). }
  destruct E as [rest ->].
  change ("/tree" ++ "/" ++ rest) with ("/tree/" ++ rest).
  unfold cut_tree. rewrite includes_append.
  apply repo_tree_split_head; [assumption|apply starts_with_append].
Qed.

End NormalizerFacts.

(** *** The URL forms *)

(** C3 at its failing input.  For the repository [tree] of owner [o],
    the URL of its branch [main] is [https://github.com/o/tree/tree/main];
    the cut of lines 31-33 is made at the first [/tree/], which is
    the name of the repository itself, and what is left is the owner
    alone, not [o/tree]. *)
Theorem repository_named_tree_is_cut :
  normalize ("https://github.com/" ++ "o" ++ "/" ++ "tree" ++ "/tree/" ++ "main") = "o"
  /\ normalize ("https://github.com/" ++ "o" ++ "/" ++ "tree" ++ "/tree/" ++ "main")
     <> "o" ++ "/" ++ "tree".
Proof. split; [reflexivity|vm_compute; discriminate]. Qed.

(** X22.  For OWNER and NAME that are path segments (no [/]), NAME
    non-empty, the normalizer maps [https://github.com/OWNER/NAME.git]
    and [https://github.com/OWNER/NAME/] to [OWNER/NAME]; it maps
    [https://github.com/OWNER/NAME] there when NAME does not itself end
    in [.git], and [https://github.com/OWNER/NAME/tree/BRANCH] when
    NAME is not [tree] and BRANCH is neither empty nor [.git]. *)
Theorem normalize_url_forms (OWNER NAME BRANCH : string) :
  mem_char "/" OWNER = false ->
  mem_char "/" NAME = false ->
  NAME <> "" ->
  let repo := OWNER ++ "/" ++ NAME in
  (ends_with ".git" NAME = false ->
   normalize ("https://github.com/" ++ repo) = repo) /\
  normalize ("https://github.com/" ++ repo ++ ".git") = repo /\
  normalize ("https://github.com/" ++ repo ++ "/") = repo /\
  (NAME <> "tree" -> BRANCH <> "" -> BRANCH <> ".git" ->
   normalize ("https://github.com/" ++ repo ++ "/tree/" ++ BRANCH) = repo).
Proof.
  intros Ho Hn Hne repo. subst repo. unfold normalize.
  rewrite !strip_github_url_https. repeat split.
  - intros Hgit. rewrite repo_strip_suffixes by assumption. now apply repo_cut_tree.
  - rewrite repo_git_strip_suffixes by assumption. now apply repo_cut_tree.
  - rewrite repo_slash_strip_suffixes by assumption. now apply repo_cut_tree.
  - intros. now apply repo_tree_normalize.
Qed.

Lemma normalize_url_forms_witness :
  (mem_char "/" "octocat" = false /\ mem_char "/" "Hello-World" = false /\
   "Hello-World" <> "") /\
  normalize "https://github.com/octocat/Hello-World" = "octocat/Hello-World" /\
  normalize "https://github.com/octocat/Hello-World.git" = "octocat/Hello-World" /\
  normalize "https://github.com/octocat/Hello-World/" = "octocat/Hello-World" /\
  normalize "https://github.com/octocat/Hello-World/tree/main" = "octocat/Hello-World".
Proof.
  assert (Hne : "Hello-World" <> "") by discriminate.
  split; [repeat split; assumption|].
  destruct (normalize_url_forms "octocat" "Hello-World" "main"
              eq_refl eq_refl Hne) as (H1 & H2 & H3 & H4).
  split; [apply H1; reflexivity|]. split; [exact H2|]. split; [exact H3|].
  apply H4; discriminate.
Defined.

(** *** Idempotence *)

(** C8, amended.  An input already of the form [OWNER/NAME] (segments
    without [/], NAME non-empty and not ending in [.git]) is returned
    unchanged, so normalizing again any output of that form changes
    nothing; and each step leaves alone a string in which its pattern is
    absent. *)
Theorem normalize_canonical_fixed (OWNER NAME : string) :
  mem_char "/" OWNER = false ->
  mem_char "/" NAME = false ->
  NAME <> "" ->
  ends_with ".git" NAME = false ->
  let repo := OWNER ++ "/" ++ NAME in
  normalize repo = repo /\
  (forall s, normalize s = repo -> normalize (normalize s) = normalize s) /\
  (forall s, includes "github.com/" s = false -> strip_github_url s = s) /\
  (forall s, ends_with ".git" s = false -> replace_at_end ".git" s = s) /\
  (forall s, ends_with "/" s = false -> replace_at_end "/" s = s) /\
  (forall s, includes "/tree/" s = false -> cut_tree s = s).
Proof.
  intros Ho Hn Hne Hgit repo. subst repo.
  assert (fixed : normalize (OWNER ++ "/" ++ NAME) = OWNER ++ "/" ++ NAME).
  { unfold normalize.
    rewrite strip_github_url_id by now apply repo_no_scheme.
    rewrite repo_strip_suffixes by assumption. now apply repo_cut_tree. }
  split; [exact fixed|]. split; [intros s E; now rewrite E|].
  repeat split; intros s H.
  - unfold strip_github_url. now rewrite H.
  - now apply replace_at_end_id.
  - now apply replace_at_end_id.
  - unfold cut_tree. now rewrite H.
Qed.

Lemma normalize_canonical_fixed_witness :
  (mem_char "/" "octocat" = false /\ mem_char "/" "Hello-World" = false /\
   "Hello-World" <> "" /\ ends_with ".git" "Hello-World" = false) /\
  normalize "octocat/Hello-World" = "octocat/Hello-World" /\
  normalize (normalize "https://github.com/octocat/Hello-World.git")
  = normalize "https://github.com/octocat/Hello-World.git".
Proof.
  assert (Hne : "Hello-World" <> "") by discriminate.
  split; [repeat split; assumption|].
  destruct (normalize_canonical_fixed "octocat" "Hello-World"
              eq_refl eq_refl Hne eq_refl) as (H1 & H2 & _).
  split; [exact H1|apply H2; reflexivity].
Defined.

(** C8 as stated fails: a clone URL with a trailing slash loses the
    slash on the first pass and the [.git] only on the second. *)
Lemma normalize_idempotent_counterexample :
  normalize (normalize "https://github.com/o/n.git/")
    <> normalize "https://github.com/o/n.git/".
Proof. vm_compute. discriminate. Qed.

(** *** The first step *)

(** C9, amended.  The first step removes a leading
    [https://github.com/] or [http://github.com/], and the later steps
    see the remainder only.  An input without [://], a scheme-less
    [github.com/OWNER/NAME] for one, is left as it is by the first
    step, [github.com/] included. *)
Theorem strip_github_url_spec :
  (forall rest, strip_github_url ("https://github.com/" ++ rest) = rest) /\
  (forall rest, strip_github_url ("http://github.com/" ++ rest) = rest) /\
  (forall rest, normalize ("https://github.com/" ++ rest) = cut_tree (strip_suffixes rest)) /\
  (forall rest, normalize ("http://github.com/" ++ rest) = cut_tree (strip_suffixes rest)) /\
  (forall s, includes "://" s = false -> strip_github_url s = s).
Proof.
  repeat split; try reflexivity. apply strip_github_url_id.
Qed.

Lemma strip_github_url_spec_witness :
  includes "://" "github.com/octocat/Hello-World" = false /\
  strip_github_url "github.com/octocat/Hello-World" = "github.com/octocat/Hello-World".
Proof.
  split; [reflexivity|].
  destruct strip_github_url_spec as (_ & _ & _ & _ & H). apply H. reflexivity.
Defined.

(** C9 as stated fails on the very input it names: the scheme-less
    [github.com/o/n] contains [github.com/] and keeps it. *)
Lemma strip_github_url_counterexample :
  includes "github.com/" "github.com/o/n" = true /\
  strip_github_url "github.com/o/n" = "github.com/o/n" /\
  starts_with "github.com/" (normalize "github.com/o/n") = true.
Proof. repeat split. Qed.

(** ** Asynchronous computations *)

Section AsyncFacts.

Context {A B : Type}.

Lemma bind_resolved (m : async A) (k : A -> async B) (up : upstream)
      (b : B) (t : trace) :
  bind m k up = (Resolved b, t) ->
  exists a t1 t2,
    m up = (Resolved a, t1) /\ k a up = (Resolved b, t2) /\ t = (t1 ++ t2)%list.
Proof.
  unfold bind. destruct (m up) as [[a|e] t1]; [|discriminate].
  destruct (k a up) as [r t2] eqn:E. intros H. injection H as -> <-.
  now exists a, t1, t2.
Qed.

Lemma bind_lift_inr (a : A) (k : A -> async B) (up : upstream) :
  bind (lift (inr a)) k up = k a up.
Proof. unfold bind, lift, ret. now destruct (k a up). Qed.

Lemma bind_lift_inl (e : js_error) (k : A -> async B) (up : upstream) :
  bind (lift (inl e)) k up = (Rejected e, []).
Proof. reflexivity. Qed.

Lemma bind_ret (a : A) (k : A -> async B) (up : upstream) :
  bind (ret a) k up = k a up.
Proof. unfold bind, ret. now destruct (k a up). Qed.

Lemma bind_throw (e : js_error) (k : A -> async B) (up : upstream) :
  bind (throw e) k up = (Rejected e, []).
Proof. reflexivity. Qed.

End AsyncFacts.

Lemma bind_fetch {B : Type} (r : fetch_request) (resp : fetch_response)
      (k : fetch_response -> async B) (up : upstream) :
  up r = inr resp ->
  bind (fetch r) k up = (fst (k resp up), r :: snd (k resp up)).
Proof. intros H. unfold bind, fetch. rewrite H. now destruct (k resp up). Qed.

Lemma bind_fetch_rejected {B : Type} (r : fetch_request) (e : js_error)
      (k : fetch_response -> async B) (up : upstream) :
  up r = inl e -> bind (fetch r) k up = (Rejected e, [r]).
Proof. intros H. unfold bind, fetch. now rewrite H. Qed.

(** ** Property reads *)

Lemma get_not_nullish (v : value) (k : string) :
  is_nullish v = false -> get v k = inr (opt_get v k).
Proof. destruct v; intros H; try discriminate; reflexivity. Qed.

Lemma get_field (v x : value) (k : string) :
  field k v = Some x -> get v k = inr x /\ opt_get v k = x.
Proof.
  destruct v; try discriminate. unfold opt_get. cbn [field get is_nullish].
  now intros ->.
Qed.

Lemma field_is_object (v x : value) (k : string) :
  field k v = Some x -> is_object v = true.
Proof. now destruct v. Qed.

Lemma get_object (v : value) (k : string) :
  is_object v = true -> get v k = inr (read k v).
Proof. destruct v; try discriminate. reflexivity. Qed.

(** ** More on the normalizer *)

Lemma starts_with_longer (p a b : string) :
  starts_with p a = true -> starts_with p (a ++ b) = true.
Proof.
  revert a. induction p as [|c p IH]; intros a H; [reflexivity|].
  destruct a as [|d a]; [discriminate|]. cbn [append starts_with] in *.
  apply andb_true_iff in H as [-> H]. now rewrite IH.
Qed.

Lemma split_head_prefix (sep s : string) :
  exists rest, s = split_head sep s ++ rest.
Proof.
  induction s as [|c s [rest IH]]; cbn [split_head].
  - exists "". now destruct (starts_with sep "").
  - destruct (starts_with sep (String c s)).
    + now exists (String c s).
    + exists rest. cbn [append]. now rewrite <- IH.
Qed.

(** What precedes the first occurrence holds no occurrence. *)
Lemma split_head_clean (c0 : ascii) (sep0 s : string) :
  includes (String c0 sep0) (split_head (String c0 sep0) s) = false.
Proof.
  induction s as [|c s IH]; cbn [split_head].
  - now destruct (starts_with (String c0 sep0) "").
  - destruct (starts_with (String c0 sep0) (String c s)) eqn:E; [reflexivity|].
    cbn [includes]. rewrite IH, orb_false_r.
    destruct (starts_with (String c0 sep0)
                          (String c (split_head (String c0 sep0) s))) eqn:E';
      [|reflexivity].
    destruct (split_head_prefix (String c0 sep0) s) as [rest Hrest].
    apply (starts_with_longer _ _ rest) in E'.
    cbn [append] in E'. rewrite <- Hrest in E'. congruence.
Qed.

Lemma strip_prefix_length (p s t : string) :
  strip_prefix p s = Some t -> String.length t <= String.length s.
Proof.
  intros H. apply strip_prefix_Some in H. subst s. rewrite length_append. lia.
Qed.

Lemma replace_github_url_length (s : string) :
  String.length (replace_github_url s) <= String.length s.
Proof.
  induction s as [|c s IH]; [cbn; lia|].
  cbn [replace_github_url].
  destruct (match_github_url (String c s)) as [t|] eqn:E.
  - unfold match_github_url in E.
    destruct (strip_prefix "http" (String c s)) as [r|] eqn:E1; [|discriminate].
    apply strip_prefix_length in E1.
    assert (plain : strip_prefix "://github.com/" r = Some t ->
                    String.length t <= String.length (String c s)).
    { intros E2. apply strip_prefix_length in E2. lia. }
    destruct (strip_prefix "s" r) as [r'|] eqn:E2; [|now apply plain].
    destruct (strip_prefix "://github.com/" r') as [t'|] eqn:E3; [|now apply plain].
    injection E as <-. apply strip_prefix_length in E2, E3. lia.
  - cbn [String.length]. lia.
Qed.

Lemma replace_at_end_length (p s : string) :
  String.length (replace_at_end p s) <= String.length s.
Proof.
  induction s as [|c s IH]; cbn [replace_at_end].
  - destruct ("" =? p); cbn; lia.
  - destruct (String c s =? p); cbn [String.length]; lia.
Qed.

Lemma split_head_length (sep s : string) :
  String.length (split_head sep s) <= String.length s.
Proof.
  induction s as [|c s IH]; cbn [split_head].
  - destruct (starts_with sep ""); cbn; lia.
  - destruct (starts_with sep (String c s)); cbn [String.length]; lia.
Qed.

(** X17.  Whatever the input, the normalized path contains no [/tree/]
    and is no longer than the input: the three steps only remove. *)
Theorem normalize_removes (repoFullName : string) :
  includes "/tree/" (normalize repoFullName) = false /\
  String.length (normalize repoFullName) <= String.length repoFullName.
Proof.
  unfold normalize, cut_tree, strip_suffixes, strip_github_url. split.
  - destruct (includes "/tree/" (replace_at_end "/" _)) eqn:E;
      [apply split_head_clean|exact E].
  - set (a := if includes "github.com/" repoFullName
              then replace_github_url repoFullName else repoFullName).
    assert (Ha : String.length a <= String.length repoFullName).
    { subst a. destruct (includes "github.com/" repoFullName);
        [apply replace_github_url_length|lia]. }
    pose proof (replace_at_end_length ".git" a) as Hb.
    pose proof (replace_at_end_length "/" (replace_at_end ".git" a)) as Hc.
    pose proof (split_head_length "/tree/" (replace_at_end "/" (replace_at_end ".git" a)))
      as Hd.
    destruct (includes "/tree/" (replace_at_end "/" (replace_at_end ".git" a))); lia.
Qed.

(** X18.  A URL with the [http] scheme is normalized like its [https]
    twin: for OWNER and NAME without [/], NAME non-empty and not ending
    in [.git], the plain form, the [.git] form, the form with a
    trailing [/] and, for a NAME other than [tree] and a BRANCH neither
    empty nor [.git], the [/tree/BRANCH] form all give [OWNER/NAME]. *)
Theorem normalize_http_forms (OWNER NAME BRANCH : string) :
  mem_char "/" OWNER = false ->
  mem_char "/" NAME = false ->
  NAME <> "" ->
  ends_with ".git" NAME = false ->
  let repo := OWNER ++ "/" ++ NAME in
  normalize ("http://github.com/" ++ repo) = repo /\
  normalize ("http://github.com/" ++ repo ++ ".git") = repo /\
  normalize ("http://github.com/" ++ repo ++ "/") = repo /\
  (NAME <> "tree" -> BRANCH <> "" -> BRANCH <> ".git" ->
   normalize ("http://github.com/" ++ repo ++ "/tree/" ++ BRANCH) = repo).
Proof.
  intros Ho Hn Hne Hgit repo. subst repo. unfold normalize.
  rewrite !strip_github_url_http. repeat split.
  - rewrite repo_strip_suffixes by assumption. now apply repo_cut_tree.
  - rewrite repo_git_strip_suffixes by assumption. now apply repo_cut_tree.
  - rewrite repo_slash_strip_suffixes by assumption. now apply repo_cut_tree.
  - intros. now apply repo_tree_normalize.
Qed.

Lemma normalize_http_forms_witness :
  normalize "http://github.com/octocat/Hello-World" = "octocat/Hello-World" /\
  normalize "http://github.com/octocat/Hello-World.git" = "octocat/Hello-World" /\
  normalize "http://github.com/octocat/Hello-World/" = "octocat/Hello-World" /\
  normalize "http://github.com/octocat/Hello-World/tree/main/src" = "octocat/Hello-World".
Proof.
  assert (Hne : "Hello-World" <> "") by discriminate.
  destruct (normalize_http_forms "octocat" "Hello-World" "main/src"
              eq_refl eq_refl Hne eq_refl) as (H1 & H2 & H3 & H4).
  split; [exact H1|]. split; [exact H2|]. split; [exact H3|].
  apply H4; discriminate.
Defined.

(** X19.  Each suffix is stripped once and [.git] before [/]: for
    OWNER and NAME as above, [OWNER/NAME/.git] after the host gives
    [OWNER/NAME], whereas [OWNER/NAME.git/] keeps its [.git] and
    [OWNER/NAME.git.git] keeps one of the two. *)
Theorem normalize_suffix_order (OWNER NAME : string) :
  mem_char "/" OWNER = false ->
  mem_char "/" NAME = false ->
  NAME <> "" ->
  let repo := OWNER ++ "/" ++ NAME in
  normalize ("https://github.com/" ++ repo ++ "/.git") = repo /\
  normalize ("https://github.com/" ++ repo ++ ".git/") = repo ++ ".git" /\
  normalize ("https://github.com/" ++ repo ++ ".git.git") = repo ++ ".git".
Proof.
  intros Ho Hn Hne repo. subst repo. unfold normalize.
  rewrite !strip_github_url_https.
  assert (Hslashes : count_char "/" ((OWNER ++ "/" ++ NAME) ++ ".git") = 1).
  { rewrite count_char_append, repo_one_slash by assumption. reflexivity. }
  assert (Hcut : cut_tree ((OWNER ++ "/" ++ NAME) ++ ".git")
                 = (OWNER ++ "/" ++ NAME) ++ ".git").
  { unfold cut_tree. rewrite (includes_few "/"); [reflexivity|].
    rewrite Hslashes. cbn. lia. }
  repeat split.
  - unfold strip_suffixes.
    change ((OWNER ++ "/" ++ NAME) ++ "/.git")
      with ((OWNER ++ "/" ++ NAME) ++ "/" ++ ".git").
    rewrite <- append_assoc, replace_at_end_append, replace_at_end_append.
    now apply repo_cut_tree.
  - unfold strip_suffixes.
    change ((OWNER ++ "/" ++ NAME) ++ ".git/")
      with ((OWNER ++ "/" ++ NAME) ++ ".git" ++ "/").
    rewrite <- append_assoc.
    rewrite (replace_at_end_id ".git").
    + rewrite replace_at_end_append. exact Hcut.
    + change (((OWNER ++ "/" ++ NAME) ++ ".git") ++ "/")
        with (((OWNER ++ "/" ++ NAME) ++ ".git") ++ String "/" "").
      now rewrite ends_with_beyond.
  - unfold strip_suffixes.
    change ((OWNER ++ "/" ++ NAME) ++ ".git.git")
      with ((OWNER ++ "/" ++ NAME) ++ ".git" ++ ".git").
    rewrite <- append_assoc, replace_at_end_append.
    rewrite replace_slash_end_append by discriminate. exact Hcut.
Qed.

Lemma normalize_suffix_order_witness :
  normalize "https://github.com/octocat/Hello-World/.git" = "octocat/Hello-World" /\
  normalize "https://github.com/octocat/Hello-World.git/" = "octocat/Hello-World.git" /\
  normalize "https://github.com/octocat/Hello-World.git.git" = "octocat/Hello-World.git".
Proof.
  assert (Hne : "Hello-World" <> "") by discriminate.
  destruct (normalize_suffix_order "octocat" "Hello-World" eq_refl eq_refl Hne)
    as (H1 & H2 & H3).
  split; [exact H1|]. split; [exact H2|exact H3].
Defined.


(** ** Conversions to text *)

Lemma to_string_credential (githubToken : option string) :
  to_string (credential githubToken) = inr (credential_text githubToken).
Proof. now destruct githubToken. Qed.

Lemma converts_text (v : value) :
  converts v = true <-> exists text, to_string v = inr text.
Proof.
  unfold converts. destruct (to_string v) as [e|text]; split;
    try discriminate; try (now eexists); intros [text' H]; discriminate.
Qed.

Lemma converts_error (v : value) :
  converts v = false <-> exists e, to_string v = inl e.
Proof.
  unfold converts. destruct (to_string v) as [e|text]; split;
    try discriminate; try (now eexists); intros [e' H]; discriminate.
Qed.

(** ** The stages of [getRepoInfo] *)

(** One step of the [try] against what the upstream is known to
    answer. *)
Ltac advance :=
  repeat first
    [ rewrite bind_lift_inr
    | rewrite bind_ret
    | rewrite bind_throw
    | rewrite bind_lift_inl
    | match goal with
      | H : ?up ?r = inr _ |- context [bind (fetch ?r) _ ?up] =>
          rewrite (bind_fetch _ _ _ _ H)
      | H : ?up ?r = inl _ |- context [bind (fetch ?r) _ ?up] =>
          rewrite (bind_fetch_rejected _ _ _ _ H)
      | H : ok ?x = _ |- context [ok ?x] => rewrite H; cbn [negb]
      | H : json ?x = _ |- context [json ?x] => rewrite H
      | H : to_string ?v = _ |- context [to_string ?v] => rewrite H
      | H : is_nullish ?v = false |- context [get ?v ?k] =>
          rewrite (get_not_nullish v k H)
      | |- context [if truthy ?d then _ else _] => destruct (truthy d)
      end ].

Ltac run_try :=
  unfold getRepoInfo, try_catch, getRepoInfo_try; cbn [normalize_ref];
  advance; cbv zeta; advance.

Lemma get_nullish (v : value) (k : string) :
  is_nullish v = true -> exists e, get v k = inl e.
Proof. destruct v; try discriminate; intros _; now eexists. Qed.

Section Stages.

Variables (repoFullName : string) (githubToken : value) (up : upstream).

Let repoPath := normalize repoFullName.

Lemma stage_token_rejected (e : js_error) :
  to_string githubToken = inl e ->
  getRepoInfo (VStr repoFullName) githubToken up
  = (Resolved (degraded (VStr repoFullName) (message e)), []).
Proof. intros H. run_try. reflexivity. Qed.

Variable token : string.
Hypothesis token_text : to_string githubToken = inr token.

Let request := repo_request repoPath token.

Lemma stage_fetch_rejected (e : js_error) :
  up request = inl e ->
  getRepoInfo (VStr repoFullName) githubToken up
  = (Resolved (degraded (VStr repoFullName) (message e)), [ request ]).
Proof. intros H. subst request repoPath. run_try. reflexivity. Qed.

Variable repoResponse : fetch_response.
Hypothesis metadata_answer : up request = inr repoResponse.

Lemma stage_status :
  ok repoResponse = false ->
  getRepoInfo (VStr repoFullName) githubToken up
  = (Resolved (degraded (VStr repoFullName)
                        ("GitHub API error: " ++ N_to_string (status repoResponse))),
     [ request ]).
Proof. intros H. subst request repoPath. run_try. reflexivity. Qed.

Hypothesis metadata_ok : ok repoResponse = true.

Lemma stage_json_rejected (e : js_error) :
  json repoResponse = inl e ->
  getRepoInfo (VStr repoFullName) githubToken up
  = (Resolved (degraded (VStr repoFullName) (message e)), [ request ]).
Proof. intros H. subst request repoPath. run_try. reflexivity. Qed.

Variable repoData : value.
Hypothesis metadata_json : json repoResponse = inr repoData.

Lemma stage_metadata_nullish :
  is_nullish repoData = true ->
  exists msg,
    getRepoInfo (VStr repoFullName) githubToken up
    = (Resolved (degraded (VStr repoFullName) msg), [ request ]).
Proof.
  intros H. destruct (get_nullish repoData "default_branch" H) as [e He].
  exists (message e). subst request repoPath. run_try. rewrite He. advance.
  reflexivity.
Qed.

Hypothesis metadata_present : is_nullish repoData = false.

Lemma stage_branch_rejected (e : js_error) :
  to_string (opt_get repoData "default_branch") = inl e ->
  getRepoInfo (VStr repoFullName) githubToken up
  = (Resolved (degraded (VStr repoFullName) (message e)), [ request ]).
Proof. intros H. subst request repoPath. run_try. reflexivity. Qed.

Variable sha : string.
Hypothesis branch_text : to_string (opt_get repoData "default_branch") = inr sha.

Let commitsRequest := commits_request repoPath sha token.

Lemma stage_commits_fetch_rejected (e : js_error) :
  up commitsRequest = inl e ->
  getRepoInfo (VStr repoFullName) githubToken up
  = (Resolved (degraded (VStr repoFullName) (message e)),
     [ request; commitsRequest ]).
Proof. intros H. subst commitsRequest request repoPath. run_try. reflexivity. Qed.

Variable commitsResponse : fetch_response.
Hypothesis commits_answer : up commitsRequest = inr commitsResponse.

Lemma stage_commits_status :
  ok commitsResponse = false ->
  getRepoInfo (VStr repoFullName) githubToken up
  = (Resolved (degraded (VStr repoFullName)
                        ("GitHub API error fetching commits: " ++
                         N_to_string (status commitsResponse))),
     [ request; commitsRequest ]).
Proof. intros H. subst commitsRequest request repoPath. run_try. reflexivity. Qed.

Hypothesis commits_ok : ok commitsResponse = true.

Lemma stage_commits_json_rejected (e : js_error) :
  json commitsResponse = inl e ->
  getRepoInfo (VStr repoFullName) githubToken up
  = (Resolved (degraded (VStr repoFullName) (message e)),
     [ request; commitsRequest ]).
Proof. intros H. subst commitsRequest request repoPath. run_try. reflexivity. Qed.

Variable commits : value.
Hypothesis commits_json : json commitsResponse = inr commits.

Lemma stage_commits_nullish :
  is_nullish commits = true ->
  exists msg,
    getRepoInfo (VStr repoFullName) githubToken up
    = (Resolved (degraded (VStr repoFullName) msg), [ request; commitsRequest ]).
Proof.
  intros H. destruct (get_nullish commits "0" H) as [e He].
  exists (message e). subst commitsRequest request repoPath. run_try.
  rewrite He. advance. reflexivity.
Qed.

Hypothesis commits_present : is_nullish commits = false.

Lemma stage_owner_nullish :
  is_nullish (opt_get repoData "owner") = true ->
  exists msg,
    getRepoInfo (VStr repoFullName) githubToken up
    = (Resolved (degraded (VStr repoFullName) msg), [ request; commitsRequest ]).
Proof.
  intros H.
  destruct (get_nullish (opt_get repoData "owner") "login" H) as [e He].
  exists (message e). subst commitsRequest request repoPath.
  run_try; rewrite He; advance; reflexivity.
Qed.

Lemma stage_assembled :
  is_nullish (opt_get repoData "owner") = false ->
  getRepoInfo (VStr repoFullName) githubToken up
  = (Resolved (assembled_record repoData commits), [ request; commitsRequest ]).
Proof.
  intros H. unfold assembled_record. subst commitsRequest request repoPath.
  run_try; reflexivity.
Qed.

End Stages.

(** Every way a call for a string can go: the token has no text and no
    request is made; or it stops after the metadata request, or after
    the commit-list request, with the degraded record; or both calls
    succeeded, nothing read was missing, and the record is
    assembled. *)
Lemma getRepoInfo_cases
      (repoFullName : string) (githubToken : value) (up : upstream) :
  (exists e,
      to_string githubToken = inl e /\
      getRepoInfo (VStr repoFullName) githubToken up
      = (Resolved (degraded (VStr repoFullName) (message e)), []))
  \/ exists token,
      to_string githubToken = inr token /\
      ((exists msg,
           getRepoInfo (VStr repoFullName) githubToken up
           = (Resolved (degraded (VStr repoFullName) msg),
              [ repo_request (normalize repoFullName) token ]))
       \/ (exists msg sha,
              getRepoInfo (VStr repoFullName) githubToken up
              = (Resolved (degraded (VStr repoFullName) msg),
                 [ repo_request (normalize repoFullName) token;
                   commits_request (normalize repoFullName) sha token ]))
       \/ (exists repoResponse commitsResponse repoData commits sha,
              up (repo_request (normalize repoFullName) token) = inr repoResponse /\
              ok repoResponse = true /\
              json repoResponse = inr repoData /\
              is_nullish repoData = false /\
              to_string (opt_get repoData "default_branch") = inr sha /\
              up (commits_request (normalize repoFullName) sha token)
              = inr commitsResponse /\
              ok commitsResponse = true /\
              json commitsResponse = inr commits /\
              is_nullish commits = false /\
              is_nullish (opt_get repoData "owner") = false /\
              getRepoInfo (VStr repoFullName) githubToken up
              = (Resolved (assembled_record repoData commits),
                 [ repo_request (normalize repoFullName) token;
                   commits_request (normalize repoFullName) sha token ]))).
Proof.
  destruct (to_string githubToken) as [e|token] eqn:E0.
  { left. exists e. split; [reflexivity|]. exact (stage_token_rejected _ _ _ _ E0). }
  right. exists token. split; [reflexivity|].
  destruct (up (repo_request (normalize repoFullName) token))
    as [e|repoResponse] eqn:E1.
  { left. eexists. exact (stage_fetch_rejected _ _ _ _ E0 _ E1). }
  destruct (ok repoResponse) eqn:E2.
  2:{ left. eexists. exact (stage_status _ _ _ _ E0 _ E1 E2). }
  destruct (json repoResponse) as [e|repoData] eqn:E3.
  { left. eexists. exact (stage_json_rejected _ _ _ _ E0 _ E1 E2 _ E3). }
  destruct (is_nullish repoData) eqn:E4.
  { left. exact (stage_metadata_nullish _ _ _ _ E0 _ E1 E2 _ E3 E4). }
  destruct (to_string (opt_get repoData "default_branch")) as [e|sha] eqn:Es.
  { left. eexists. exact (stage_branch_rejected _ _ _ _ E0 _ E1 E2 _ E3 E4 _ Es). }
  right.
  destruct (up (commits_request (normalize repoFullName) sha token))
    as [e|commitsResponse] eqn:E5.
  { left. eexists _, _.
    exact (stage_commits_fetch_rejected _ _ _ _ E0 _ E1 E2 _ E3 E4 _ Es _ E5). }
  destruct (ok commitsResponse) eqn:E6.
  2:{ left. eexists _, _.
      exact (stage_commits_status _ _ _ _ E0 _ E1 E2 _ E3 E4 _ Es _ E5 E6). }
  destruct (json commitsResponse) as [e|commits] eqn:E7.
  { left. eexists _, _.
    exact (stage_commits_json_rejected _ _ _ _ E0 _ E1 E2 _ E3 E4 _ Es _ E5 E6 _ E7). }
  destruct (is_nullish commits) eqn:E8.
  { left.
    destruct (stage_commits_nullish _ _ _ _ E0 _ E1 E2 _ E3 E4 _ Es
                                    _ E5 E6 _ E7 E8) as [msg H].
    now exists msg, sha. }
  destruct (is_nullish (opt_get repoData "owner")) eqn:E9.
  { left.
    destruct (stage_owner_nullish _ _ _ _ E0 _ E1 E2 _ E3 E4 _ Es
                                  _ E5 E6 _ E7 E8 E9) as [msg H].
    now exists msg, sha. }
  right. exists repoResponse, commitsResponse, repoData, commits, sha.
  repeat (split; [first [reflexivity|assumption]|]).
  exact (stage_assembled repoFullName githubToken up token E0 repoResponse E1 E2
                         repoData E3 E4 sha Es commitsResponse E5 E6 commits E7
                         E8 E9).
Qed.

(** ** [getRepoInfo] settles with a record, or rejects from its [catch] *)

Lemma getRepoInfo_try_shape (repoFullName githubToken : value) (up : upstream)
      (v : value) (t : trace) :
  getRepoInfo_try repoFullName githubToken up = (Resolved v, t) ->
  is_repository_info v = true.
Proof.
  unfold getRepoInfo_try. intros H.
  repeat match type of H with
         | bind _ _ _ = (Resolved _, _) =>
             apply bind_resolved in H; destruct H as (? & ? & ? & _ & H & _)
         end.
  injection H as <- _. reflexivity.
Qed.

(** When the reference has a text, as every string has. *)
Lemma getRepoInfo_settles (repoFullName githubToken : value) (up : upstream) :
  converts repoFullName = true ->
  exists v t,
    getRepoInfo repoFullName githubToken up = (Resolved v, t) /\
    (is_repository_info v = true \/ exists msg, v = degraded repoFullName msg).
Proof.
  intros Hc. apply converts_text in Hc as [text Hc].
  unfold getRepoInfo, try_catch.
  destruct (getRepoInfo_try repoFullName githubToken up) as [[v|e] t] eqn:E.
  - exists v, t. split; [reflexivity|]. left. eapply getRepoInfo_try_shape, E.
  - exists (degraded repoFullName (message e)), (t ++ [])%list.
    unfold getRepoInfo_catch. rewrite Hc, bind_lift_inr.
    split; [reflexivity|]. right. now exists (message e).
Qed.

(** When it has none: the [try] threw before any request, and the
    [catch] throws in its turn. *)
Lemma getRepoInfo_rejects (repoFullName githubToken : value) (up : upstream)
      (e : js_error) :
  to_string repoFullName = inl e ->
  getRepoInfo repoFullName githubToken up = (Rejected e, []).
Proof.
  intros H. unfold getRepoInfo, try_catch, getRepoInfo_try, getRepoInfo_catch.
  destruct repoFullName; try discriminate; cbn [normalize_ref];
    rewrite bind_lift_inl, H; reflexivity.
Qed.

Lemma getRepoInfo_not_a_string
      (repoFullName githubToken : value) (up : upstream) :
  (forall s, repoFullName <> VStr s) ->
  converts repoFullName = true ->
  exists msg,
    getRepoInfo repoFullName githubToken up
    = (Resolved (degraded repoFullName msg), []).
Proof.
  intros H Hc. apply converts_text in Hc as [text Hc].
  unfold getRepoInfo, try_catch, getRepoInfo_try, getRepoInfo_catch.
  destruct repoFullName as [| | | |ref| |]; cbn [normalize_ref];
    try (rewrite bind_lift_inl, Hc, bind_lift_inr; eexists; reflexivity).
  now destruct (H ref).
Qed.

Lemma same_names_eq (a b : list string) : same_names a b = true -> a = b.
Proof.
  revert b. induction a as [|x a IH]; intros [|y b] H; try discriminate;
    [reflexivity|].
  cbn [same_names] in H. apply andb_true_iff in H as [Hx Hab].
  apply String.eqb_eq in Hx. subst y. f_equal. now apply IH.
Qed.

Lemma own_property_absent (k : string) (props : list (string * value)) :
  ~ In k (map fst props) -> own_property k props = None.
Proof.
  induction props as [|[k0 v0] props IH]; cbn [own_property map fst In];
    intros H; [reflexivity|].
  destruct (String.eqb_spec k0 k) as [->|_]; [tauto|]. apply IH. tauto.
Qed.

(** The records [getRepoInfo] resolves to are objects without a
    property named [__proto__]. *)
Lemma getRepoInfo_plain (repoFullName githubToken : value) (up : upstream)
      (v : value) (t : trace) :
  getRepoInfo repoFullName githubToken up = (Resolved v, t) ->
  exists props, v = VObj props /\ own_property "__proto__" props = None.
Proof.
  unfold getRepoInfo, try_catch.
  destruct (getRepoInfo_try repoFullName githubToken up) as [[v0|e] t0] eqn:E.
  - intros H. injection H as <- _.
    apply getRepoInfo_try_shape in E.
    destruct v0 as [| | | | | |props]; try discriminate.
    exists props. split; [reflexivity|].
    unfold is_repository_info, same_keys in E. cbn [is_object keys andb] in E.
    apply andb_true_iff in E as [E _]. apply same_names_eq in E.
    apply own_property_absent. rewrite E.
    cbn [In]. intros H'; repeat destruct H' as [H'|H']; try discriminate; exact H'.
  - unfold getRepoInfo_catch.
    destruct (to_string repoFullName) as [e'|text];
      [rewrite bind_lift_inl; discriminate|rewrite bind_lift_inr].
    intros H. injection H as <- _. now eexists.
Qed.

Lemma getRepoInfo_object (repoFullName githubToken : value) (up : upstream) :
  converts repoFullName = true ->
  exists props t,
    getRepoInfo repoFullName githubToken up = (Resolved (VObj props), t).
Proof.
  intros Hc.
  destruct (getRepoInfo_settles repoFullName githubToken up Hc) as (v & t & E & _).
  destruct (getRepoInfo_plain _ _ _ _ _ E) as (props & -> & _).
  now exists props, t.
Qed.

(** The requests of one call carry the text of the token, and go to
    the metadata address of the normalized path or to its commit
    list. *)
Lemma getRepoInfo_trace
      (repoFullName githubToken : value) (up : upstream) (r : fetch_request) :
  In r (snd (getRepoInfo repoFullName githubToken up)) ->
  exists s token,
    repoFullName = VStr s /\
    to_string githubToken = inr token /\
    headers r = api_headers token /\
    (url r = "https://api.github.com/repos/" ++ normalize s \/
     exists sha,
       url r = "https://api.github.com/repos/" ++ normalize s ++
               "/commits?per_page=1&sha=" ++ sha).
Proof.
  destruct repoFullName as [| | | |s| |];
    try (match goal with
         | |- In _ (snd (getRepoInfo ?v _ _)) -> _ =>
             destruct (to_string v) as [err|txt] eqn:Et;
             [rewrite (getRepoInfo_rejects _ _ _ _ Et); intros []
             |assert (Hn : forall s', v <> VStr s') by (intros s'; discriminate);
              assert (Hc : converts v = true)
                by (apply converts_text; now exists txt);
              destruct (getRepoInfo_not_a_string v githubToken up Hn Hc) as [msg ->];
              intros []]
         end).
  destruct (getRepoInfo_cases s githubToken up)
    as [(e & _ & ->)
       |(token & Ht & [[msg ->]
                      |[(msg & sha & ->)
                       |(? & ? & ? & ? & sha & _ & _ & _ & _ & _ & _ & _ & _ & _ & _ & ->)]])];
    cbn [snd In]; intros H; repeat destruct H as [H|H]; try contradiction;
    subst r; exists s, token; repeat split; auto; right; now exists sha.
Qed.

(** C1.  Whatever the reference string, the credential (a string, or
    [undefined] when absent) and the answers of the upstream,
    [getRepoInfo] does not reject: it resolves to a full RepositoryInfo
    or to the degraded record, whose [name] is the reference as it was
    passed in. *)
Theorem getRepoInfo_never_rejects
        (repoFullName : string) (githubToken : value) (up : upstream) :
  exists info,
    fst (getRepoInfo (VStr repoFullName) githubToken up) = Resolved info /\
    (is_repository_info info = true \/
     exists msg,
       info = VObj [ ("name", VStr repoFullName);
                     ("error", VStr msg);
                     ("last_updated", VNull) ]).
Proof.
  destruct (getRepoInfo_settles (VStr repoFullName) githubToken up eq_refl)
    as (v & t & E & H).
  exists v. rewrite E. split; [reflexivity|exact H].
Qed.

(** ** The metadata call fails *)

(** C4.  Whatever the reference and the credential, a string or none:
    when the upstream answers the metadata request with a status
    outside 200-299, [getRepoInfo] resolves to the degraded record
    naming the reference as passed in and that status, and the metadata
    request is the only one it issued. *)
Theorem metadata_failure_degrades
        (repoFullName : string) (githubToken : option string) (up : upstream)
        (repoResponse : fetch_response) :
  up (repo_request (normalize repoFullName) (credential_text githubToken))
  = inr repoResponse ->
  ok repoResponse = false ->
  getRepoInfo (VStr repoFullName) (credential githubToken) up
  = (Resolved (VObj [ ("name", VStr repoFullName);
                      ("error", VStr ("GitHub API error: " ++
                                      N_to_string (status repoResponse)));
                      ("last_updated", VNull) ]),
     [ repo_request (normalize repoFullName) (credential_text githubToken) ]).
Proof.
  intros Hfetch Hok.
  exact (stage_status _ _ _ _ (to_string_credential githubToken) _ Hfetch Hok).
Qed.

Lemma metadata_failure_degrades_witness :
  (not_found (repo_request (normalize "https://github.com/octocat/Hello-World.git")
                           (credential_text (Some "token")))
   = inr {| status := 404; json := inl (Error "Unexpected token") |}
   /\ ok {| status := 404; json := inl (Error "Unexpected token") |} = false)
  /\ getRepoInfo (VStr "https://github.com/octocat/Hello-World.git") (VStr "token")
                 not_found
     = (Resolved (VObj [ ("name", VStr "https://github.com/octocat/Hello-World.git");
                         ("error", VStr "GitHub API error: 404");
                         ("last_updated", VNull) ]),
        [ {| url := "https://api.github.com/repos/octocat/Hello-World";
             headers := [ ("User-Agent", "YackSuite-Tool-Status-Checker");
                          ("Accept", "application/vnd.github.v3+json");
                          ("Authorization", "Bearer token") ] |} ]).
Proof.
  split; [split; reflexivity|].
  exact (metadata_failure_degrades
           "https://github.com/octocat/Hello-World.git" (Some "token") not_found
           {| status := 404; json := inl (Error "Unexpected token") |}
           eq_refl eq_refl).
Defined.

(** ** Both calls succeed *)

Lemma opt_get_read (v : value) (k : string) :
  is_nullish v = false -> (k =? "0") = false -> opt_get v k = read k v.
Proof.
  intros Hv Hk. destruct v; try discriminate; unfold opt_get, read;
    cbn [is_nullish get field]; rewrite ?Hk; reflexivity.
Qed.

Section BothCallsSucceed.

Variables (repoFullName : string) (githubToken : value) (up : upstream).
Variables (token sha : string).
Variables (repoResponse commitsResponse : fetch_response).
Variables (repoData owner : value) (commits : list value).

Hypothesis token_text : to_string githubToken = inr token.
Hypothesis metadata_answer :
  up (repo_request (normalize repoFullName) token) = inr repoResponse.
Hypothesis metadata_ok : ok repoResponse = true.
Hypothesis metadata_json : json repoResponse = inr repoData.
Hypothesis metadata_owner : field "owner" repoData = Some owner.
Hypothesis owner_present : is_nullish owner = false.
Hypothesis branch_text : to_string (read "default_branch" repoData) = inr sha.
Hypothesis commits_answer :
  up (commits_request (normalize repoFullName) sha token) = inr commitsResponse.
Hypothesis commits_ok : ok commitsResponse = true.
Hypothesis commits_json : json commitsResponse = inr (VArr commits).

Lemma getRepoInfo_both_ok :
  getRepoInfo (VStr repoFullName) githubToken up
  = (Resolved (assembled_record repoData (VArr commits)),
     [ repo_request (normalize repoFullName) token;
       commits_request (normalize repoFullName) sha token ]).
Proof.
  assert (Hdata : is_nullish repoData = false)
    by (generalize metadata_owner; destruct repoData; discriminate || reflexivity).
  assert (Howner : opt_get repoData "owner" = owner)
    by (now destruct (get_field _ _ _ metadata_owner)).
  assert (Hbranch : to_string (opt_get repoData "default_branch") = inr sha)
    by (now rewrite opt_get_read).
  apply (stage_assembled repoFullName githubToken up token token_text
                         repoResponse metadata_answer metadata_ok
                         repoData metadata_json Hdata sha Hbranch
                         commitsResponse commits_answer commits_ok
                         (VArr commits) commits_json eq_refl).
  now rewrite Howner.
Qed.

Lemma assembled_fields :
  let info := assembled_record repoData (VArr commits) in
  is_repository_info info = true /\
  field "name" info = Some (read "name" repoData) /\
  field "full_name" info = Some (read "full_name" repoData) /\
  field "description" info = Some (read "description" repoData) /\
  field "url" info = Some (read "html_url" repoData) /\
  field "stars" info = Some (read "stargazers_count" repoData) /\
  field "forks" info = Some (read "forks_count" repoData) /\
  field "owner" info
  = Some (VObj [ ("login", read "login" owner);
                 ("avatar_url", read "avatar_url" owner);
                 ("url", read "html_url" owner) ]).
Proof.
  assert (Hdata : is_nullish repoData = false)
    by (generalize metadata_owner; destruct repoData; discriminate || reflexivity).
  assert (Howner : opt_get repoData "owner" = owner)
    by (now destruct (get_field _ _ _ metadata_owner)).
  unfold assembled_record. cbv zeta. rewrite Howner.
  rewrite <- !(opt_get_read repoData) by (exact Hdata || reflexivity).
  rewrite <- !(opt_get_read owner) by (exact owner_present || reflexivity).
  repeat split.
Qed.

(** C5, amended.  With both calls successful and an owner in the
    metadata, the record is assembled; its [last_updated] is the
    committer date of the first commit when the array has one carrying
    a date that is not empty, whatever [updated_at] is; on an empty
    array the two commit fields are empty strings and [last_updated] is
    the [updated_at] of the metadata. *)
Theorem last_updated_prefers_commit :
  exists info t,
    getRepoInfo (VStr repoFullName) githubToken up = (Resolved info, t) /\
    is_repository_info info = true /\
    (forall first rest commit committer date,
        commits = first :: rest ->
        field "commit" first = Some commit ->
        field "committer" commit = Some committer ->
        field "date" committer = Some date ->
        truthy date = true ->
        field "last_updated" info = Some date) /\
    (commits = [] ->
     field "last_commit_message" info = Some (VStr "") /\
     field "last_commit_url" info = Some (VStr "") /\
     field "last_updated" info = Some (read "updated_at" repoData)).
Proof.
  assert (Hdata : is_nullish repoData = false)
    by (generalize metadata_owner; destruct repoData; discriminate || reflexivity).
  eexists _, _. split; [apply getRepoInfo_both_ok|].
  split; [reflexivity|]. split.
  - intros first rest commit committer date -> Hc Hm Hd Ht.
    unfold assembled_record.
    cbn [opt_get is_nullish get nth field own_property String.eqb Ascii.eqb Bool.eqb].
    fold (opt_get first "commit").
    apply get_field in Hc as [_ Hc]. rewrite Hc.
    fold (opt_get commit "committer").
    apply get_field in Hm as [_ Hm]. rewrite Hm.
    fold (opt_get committer "date").
    apply get_field in Hd as [_ Hd]. rewrite Hd.
    now rewrite Ht.
  - intros ->. rewrite <- (opt_get_read repoData "updated_at" Hdata eq_refl).
    repeat split.
Qed.

(** X2.  With both calls successful and an owner in the metadata,
    [getRepoInfo] resolves to a record after exactly the two requests;
    [name], [full_name] and [description] are the metadata's, [url] its
    [html_url], [stars] its [stargazers_count], [forks] its
    [forks_count]; [owner] holds the owner's [login], [avatar_url] and,
    as [url], [html_url]; and on a non-empty commit list a message and
    an address that are not empty are those of the first commit. *)
Theorem getRepoInfo_assembles :
  exists info,
    getRepoInfo (VStr repoFullName) githubToken up
    = (Resolved info,
       [ repo_request (normalize repoFullName) token;
         commits_request (normalize repoFullName) sha token ]) /\
    field "name" info = Some (read "name" repoData) /\
    field "full_name" info = Some (read "full_name" repoData) /\
    field "description" info = Some (read "description" repoData) /\
    field "url" info = Some (read "html_url" repoData) /\
    field "stars" info = Some (read "stargazers_count" repoData) /\
    field "forks" info = Some (read "forks_count" repoData) /\
    field "owner" info
    = Some (VObj [ ("login", read "login" owner);
                   ("avatar_url", read "avatar_url" owner);
                   ("url", read "html_url" owner) ]) /\
    (forall first rest,
        commits = first :: rest ->
        (forall commit text,
            field "commit" first = Some commit ->
            field "message" commit = Some text ->
            truthy text = true ->
            field "last_commit_message" info = Some text) /\
        (forall address,
            field "html_url" first = Some address ->
            truthy address = true ->
            field "last_commit_url" info = Some address)).
Proof.
  exists (assembled_record repoData (VArr commits)).
  split; [apply getRepoInfo_both_ok|].
  destruct assembled_fields as (_ & H1 & H2 & H3 & H4 & H5 & H6 & H7).
  repeat (split; [assumption|]).
  intros first rest ->. unfold assembled_record, or_else.
  cbn [opt_get is_nullish get nth field own_property String.eqb Ascii.eqb Bool.eqb].
  split.
  - intros commit text Hc Hm Ht.
    fold (opt_get first "commit").
    apply get_field in Hc as [_ Hc]. rewrite Hc.
    fold (opt_get commit "message").
    apply get_field in Hm as [_ Hm]. rewrite Hm. now rewrite Ht.
  - intros address Ha Ht.
    fold (opt_get first "html_url").
    apply get_field in Ha as [_ Ha]. rewrite Ha. now rewrite Ht.
Qed.

End BothCallsSucceed.

Lemma last_updated_prefers_commit_witness :
  (to_string (VStr "token") = inr "token"
   /\ sample_upstream sample_commits
        (repo_request (normalize "octocat/Hello-World") "token")
      = inr {| status := 200; json := inr sample_repo |}
   /\ field "owner" sample_repo = Some sample_owner
   /\ is_nullish sample_owner = false
   /\ to_string (read "default_branch" sample_repo) = inr "master"
   /\ sample_upstream sample_commits
        (commits_request (normalize "octocat/Hello-World") "master" "token")
      = inr {| status := 200; json := inr (VArr sample_commits) |})
  /\ exists info t,
      getRepoInfo (VStr "octocat/Hello-World") (VStr "token")
                  (sample_upstream sample_commits) = (Resolved info, t)
      /\ field "last_updated" info = Some (VStr "2011-04-14T16:00:49Z").
Proof.
  split; [repeat split|].
  destruct (last_updated_prefers_commit
              "octocat/Hello-World" (VStr "token") (sample_upstream sample_commits)
              "token" "master"
              {| status := 200; json := inr sample_repo |}
              {| status := 200; json := inr (VArr sample_commits) |}
              sample_repo sample_owner sample_commits
              eq_refl eq_refl eq_refl eq_refl eq_refl eq_refl eq_refl
              eq_refl eq_refl eq_refl)
    as (info & t & E & _ & Hdate & _).
  exists info, t. split; [exact E|].
  eapply Hdate; reflexivity.
Defined.

(** C5 as stated fails: both calls answer 200 with JSON and the commit
    list is not empty, yet [last_updated] is not the committer date.
    Without an owner in the metadata line 76 throws and the record is
    the degraded one, with [null]; and a committer date that is the
    empty text gives way to [updated_at] on line 72. *)
Lemma last_updated_counterexample :
  let ownerless_run :=
    getRepoInfo (VStr "octocat/Hello-World") (VStr "token") ownerless in
  let undated_run :=
    getRepoInfo (VStr "octocat/Hello-World") (VStr "token")
                (sample_upstream undated_commits) in
  (snd ownerless_run
   = [ repo_request "octocat/Hello-World" "token";
       commits_request "octocat/Hello-World" "master" "token" ]
   /\ ownerless (commits_request "octocat/Hello-World" "master" "token")
      = inr {| status := 200; json := inr (VArr sample_commits) |}
   /\ field "last_updated" (resolved_value (fst ownerless_run)) = Some VNull
   /\ is_repository_info (resolved_value (fst ownerless_run)) = false)
  /\
  (snd undated_run
   = [ repo_request "octocat/Hello-World" "token";
       commits_request "octocat/Hello-World" "master" "token" ]
   /\ is_repository_info (resolved_value (fst undated_run)) = true
   /\ read "date" (read "committer" (read "commit" (nth 0 undated_commits VUndefined)))
      = VStr ""
   /\ field "last_updated" (resolved_value (fst undated_run))
      = Some (VStr "2011-01-26T19:14:43Z")).
Proof. vm_compute. repeat split. Qed.

Lemma getRepoInfo_assembles_witness :
  exists info,
    getRepoInfo (VStr "https://github.com/octocat/Hello-World/tree/master")
                (VStr "token") (sample_upstream sample_commits)
    = (Resolved info,
       [ {| url := "https://api.github.com/repos/octocat/Hello-World";
            headers := api_headers "token" |};
         {| url := "https://api.github.com/repos/octocat/Hello-World/commits?per_page=1&sha=master";
            headers := api_headers "token" |} ]) /\
    field "name" info = Some (VStr "Hello-World") /\
    field "stars" info = Some (VNum "80") /\
    field "owner" info
    = Some (VObj [ ("login", VStr "octocat");
                   ("avatar_url",
                    VStr "https://github.com/images/error/octocat_happy.gif");
                   ("url", VStr "https://github.com/octocat") ]) /\
    field "last_commit_message" info = Some (VStr "Fix all the bugs") /\
    field "last_commit_url" info
    = Some (VStr "https://github.com/octocat/Hello-World/commit/6dcb09b").
Proof.
  destruct (getRepoInfo_assembles
              "https://github.com/octocat/Hello-World/tree/master" (VStr "token")
              (sample_upstream sample_commits) "token" "master"
              {| status := 200; json := inr sample_repo |}
              {| status := 200; json := inr (VArr sample_commits) |}
              sample_repo sample_owner sample_commits
              eq_refl eq_refl eq_refl eq_refl eq_refl eq_refl eq_refl
              eq_refl eq_refl eq_refl)
    as (info & E & Hname & _ & _ & _ & Hstars & _ & Howner & Hcommit).
  destruct (Hcommit _ _ eq_refl) as [Hmessage Haddress].
  exists info. split; [exact E|].
  split; [exact Hname|]. split; [exact Hstars|]. split; [exact Howner|].
  split; [eapply Hmessage; reflexivity|eapply Haddress; reflexivity].
Defined.

(** ** The routes *)

Lemma getRepoInfo_first_request
      (repoFullName : string) (githubToken : value) (up : upstream)
      (token : string) :
  to_string githubToken = inr token ->
  exists rest,
    snd (getRepoInfo (VStr repoFullName) githubToken up)
    = repo_request (normalize repoFullName) token :: rest.
Proof.
  intros Ht.
  unfold getRepoInfo, try_catch, getRepoInfo_try. cbn [normalize_ref].
  rewrite bind_lift_inr, Ht, bind_lift_inr.
  destruct (up (repo_request (normalize repoFullName) token))
    as [e|resp] eqn:E.
  - rewrite (bind_fetch_rejected _ _ _ _ E). now eexists.
  - rewrite (bind_fetch _ _ _ _ E).
    match goal with |- context [fst ?K] => destruct K as [[v|e] t] end;
      now eexists.
Qed.




(** C10, amended.  On the single route with a non-empty [repo]
    parameter the [try] resolves, so the [catch] and its 500 are out of
    reach: the answer is 200 with [Content-Type: application/json] and
    [Cache-Control: public, max-age=3600], carrying what [getRepoInfo]
    resolved to. *)
Theorem single_lookup_answers_200
        (request : http_request) (env : js_env) (world : nat -> upstream)
        (repoUrl : string) :
  pathname request = "/api/repo-info" ->
  searchParams_get "repo" (searchParams request) = Some repoUrl ->
  repoUrl <> "" ->
  exists repoInfo t,
    getRepoInfo (VStr repoUrl) VUndefined (world 0) = (Resolved repoInfo, t) /\
    repo_info_try request world
    = (Resolved {| resp_status := 200;
                   resp_headers := [ ("Content-Type", "application/json");
                                     ("Cache-Control", "public, max-age=3600") ];
                   payload := repoInfo |}, [t]) /\
    onRequest request env world
    = (Respond {| resp_status := 200;
                  resp_headers := [ ("Content-Type", "application/json");
                                    ("Cache-Control", "public, max-age=3600") ];
                  payload := repoInfo |}, [t]).
Proof.
  intros Hpath Hrepo Hne.
  destruct (getRepoInfo_settles (VStr repoUrl) VUndefined (world 0) eq_refl)
    as (repoInfo & t & E & _).
  exists repoInfo, t. split; [exact E|].
  assert (Htry : repo_info_try request world
                 = (Resolved {| resp_status := 200;
                                resp_headers := [ ("Content-Type", "application/json");
                                                  ("Cache-Control", CACHE_CONTROL) ];
                                payload := repoInfo |}, [t])).
  { unfold repo_info_try. rewrite Hrepo.
    destruct repoUrl as [|c u]; [contradiction|]. now rewrite E. }
  split; [exact Htry|].
  unfold onRequest. rewrite Hpath. cbn [String.eqb Ascii.eqb Bool.eqb].
  now rewrite Htry.
Qed.

Lemma single_lookup_answers_200_witness :
  (pathname (get_request "/api/repo-info" [ ("repo", "octocat/Hello-World") ])
   = "/api/repo-info"
   /\ searchParams_get "repo" [ ("repo", "octocat/Hello-World") ]
      = Some "octocat/Hello-World"
   /\ "octocat/Hello-World" <> "")
  /\ exists repoInfo t,
      onRequest (get_request "/api/repo-info" [ ("repo", "octocat/Hello-World") ])
                {| GITHUB_TOKEN := VStr "token" |} (fun _ => not_found)
      = (Respond {| resp_status := 200;
                    resp_headers := [ ("Content-Type", "application/json");
                                      ("Cache-Control", "public, max-age=3600") ];
                    payload := repoInfo |}, [t]).
Proof.
  assert (Hne : "octocat/Hello-World" <> "") by discriminate.
  split; [repeat split; exact Hne|].
  destruct (single_lookup_answers_200
              (get_request "/api/repo-info" [ ("repo", "octocat/Hello-World") ])
              {| GITHUB_TOKEN := VStr "token" |} (fun _ => not_found)
              "octocat/Hello-World" eq_refl eq_refl Hne)
    as (repoInfo & t & _ & _ & E).
  exists repoInfo, t. exact E.
Defined.

(** C10 as stated fails: [?repo=] has the parameter, with the empty
    string for value, which line 156 takes for a missing one. *)
Lemma empty_repo_counterexample :
  searchParams_get "repo" [ ("repo", "") ] = Some "" /\
  fst (onRequest (get_request "/api/repo-info" [ ("repo", "") ])
                 {| GITHUB_TOKEN := VStr "token" |} (fun _ => not_found))
  = Respond {| resp_status := 400;
               resp_headers := [ ("Content-Type", "application/json") ];
               payload := VObj [ ("error", VStr "Missing repo parameter") ] |}.
Proof. split; reflexivity. Qed.

(** C2 at its failing input.  For the body [{repos: ["__proto__"]}]
    the assignment of line 132 goes to the setter of
    [Object.prototype.__proto__]: the result of the look-up becomes the
    prototype of [repoInfoMap], which keeps no own property, and the
    200 response carries an object without any key. *)
Theorem proto_key_is_lost (env : js_env) (world : nat -> upstream) :
  fst (onRequest (post_request "/api/repos-info"
                               (VObj [ ("repos", VArr [ VStr "__proto__" ]) ]))
                 env world)
  = Respond {| resp_status := 200;
               resp_headers := [ ("Content-Type", "application/json");
                                 ("Cache-Control", "public, max-age=3600") ];
               payload := VObj [] |}.
Proof.
  unfold onRequest, post_request, repos_info_try.
  cbn [pathname method body String.eqb Ascii.eqb Bool.eqb negb destructure get
       own_property truthy is_array orb elements launch map].
  destruct (getRepoInfo_object (VStr "__proto__") (GITHUB_TOKEN env) (world 0)
                               eq_refl)
    as (props & t & ->).
  reflexivity.
Qed.

(** C6 at its failing input.  The single route calls [getRepoInfo]
    without a token; the template literal of line 40 turns [undefined]
    into text, and the metadata request leaves with
    [Authorization: Bearer undefined]. *)
Theorem single_lookup_bearer_undefined (world : nat -> upstream) :
  exists first rest,
    snd (onRequest (get_request "/api/repo-info" [ ("repo", "octocat/Hello-World") ])
                   {| GITHUB_TOKEN := VStr "token" |} world)
    = [ first :: rest ] /\
    url first = "https://api.github.com/repos/octocat/Hello-World" /\
    header "User-Agent" (headers first) = Some "YackSuite-Tool-Status-Checker" /\
    header "Authorization" (headers first) = Some "Bearer undefined".
Proof.
  destruct (getRepoInfo_first_request "octocat/Hello-World" VUndefined (world 0)
                                      "undefined" eq_refl)
    as [rest E].
  exists (repo_request (normalize "octocat/Hello-World") "undefined"), rest.
  split; [|repeat split].
  unfold onRequest, get_request, repo_info_try.
  cbn [pathname searchParams searchParams_get String.eqb Ascii.eqb Bool.eqb].
  destruct (getRepoInfo (VStr "octocat/Hello-World") VUndefined (world 0))
    as [[v|e] t]; cbn [snd] in E; now rewrite E.
Qed.

(** With a token the same request carries it, next to the client
    agent. *)
Lemma repo_request_headers (repoPath token : string) :
  header "User-Agent" (headers (repo_request repoPath token))
  = Some "YackSuite-Tool-Status-Checker" /\
  header "Authorization" (headers (repo_request repoPath token))
  = Some ("Bearer " ++ token).
Proof. split; reflexivity. Qed.

(** ** The bulk route on keys other than [__proto__] *)

Section OwnProperties.

Lemma set_own_keys (k : string) (v : value) (m : list (string * value)) (k' : string) :
  In k' (map fst (set_own k v m)) <-> k' = k \/ In k' (map fst m).
Proof.
  induction m as [|[k0 v0] m IH]; cbn [set_own map fst In].
  - intuition congruence.
  - destruct (String.eqb_spec k0 k) as [->|Hne]; cbn [map fst In].
    + intuition congruence.
    + rewrite IH. tauto.
Qed.

Lemma set_own_NoDup (k : string) (v : value) (m : list (string * value)) :
  NoDup (map fst m) -> NoDup (map fst (set_own k v m)).
Proof.
  induction m as [|[k0 v0] m IH]; cbn [set_own map fst]; intros H.
  - constructor; [intros []|constructor].
  - destruct (String.eqb_spec k0 k) as [->|Hne]; cbn [map fst]; [exact H|].
    inversion H as [|? ? Hin Hnd]; subst. constructor; [|now apply IH].
    rewrite set_own_keys. intros [->|Hk]; [now apply Hne|now apply Hin].
Qed.

Lemma set_own_property (k : string) (v : value) (m : list (string * value))
      (k' : string) :
  own_property k' (set_own k v m)
  = if k =? k' then Some v else own_property k' m.
Proof.
  induction m as [|[k0 v0] m IH]; cbn [set_own own_property].
  - reflexivity.
  - destruct (String.eqb_spec k0 k) as [->|Hne]; cbn [own_property].
    + now destruct (k =? k').
    + rewrite IH. destruct (String.eqb_spec k0 k') as [->|]; [|reflexivity].
      apply String.eqb_neq in Hne. rewrite String.eqb_sym in Hne.
      now rewrite Hne.
Qed.

Lemma set_all_keys (entries m : list (string * value)) (k : string) :
  In k (map fst (set_all m entries)) <-> In k (map fst m) \/ In k (map fst entries).
Proof.
  revert m. induction entries as [|[k0 v0] entries IH]; intros m;
    cbn [set_all fold_left map fst snd In].
  - tauto.
  - fold (set_all (set_own k0 v0 m) entries). rewrite IH, set_own_keys.
    intuition congruence.
Qed.

Lemma set_all_NoDup (entries m : list (string * value)) :
  NoDup (map fst m) -> NoDup (map fst (set_all m entries)).
Proof.
  revert m. induction entries as [|[k0 v0] entries IH]; intros m H; [exact H|].
  apply (IH (set_own k0 v0 m)), set_own_NoDup, H.
Qed.

(** A value found under [k] is the one of the last assignment under
    [k], unless there was none and it was there before. *)
Lemma set_all_property (entries m : list (string * value)) (k : string) (v : value) :
  own_property k (set_all m entries) = Some v ->
  (exists j, nth_error entries j = Some (k, v) /\
             forall later v', j < later -> nth_error entries later <> Some (k, v'))
  \/ (own_property k m = Some v /\ ~ In k (map fst entries)).
Proof.
  revert m. induction entries as [|[k0 v0] entries IH]; intros m H.
  - right. split; [exact H|intros []].
  - destruct (IH (set_own k0 v0 m) H) as [(j & Hj & Hlast)|[Hm Hnone]].
    + left. exists (S j). split; [exact Hj|].
      intros [|later] v' Hlt; [lia|]. apply Hlast. lia.
    + rewrite set_own_property in Hm.
      destruct (String.eqb_spec k0 k) as [->|Hne].
      * injection Hm as ->. left. exists 0. split; [reflexivity|].
        intros [|later] v' Hlt Hnth; [lia|]. apply Hnone.
        cbn [nth_error] in Hnth. apply nth_error_In in Hnth. apply (in_map fst) in Hnth. exact Hnth.
      * right. split; [exact Hm|]. intros [Hk|Hk]; [now apply Hne|now apply Hnone].
Qed.

(** Assignments under names other than [__proto__] are the ones
    [set_all] describes. *)
Lemma build_map_own (names : list string) (results : list value) (o : js_object) :
  ~ In "__proto__" names ->
  exists repoInfoMap,
    assign_all o (combine (map VStr names) results) = inr repoInfoMap /\
    own repoInfoMap = set_all (own o) (combine names results).
Proof.
  revert results o. induction names as [|k names IH]; intros results o Hk;
    [now exists o|].
  destruct results as [|v results]; [now exists o|].
  cbn [map combine assign_all set_all fold_left fst snd].
  fold (set_all (set_own k v (own o)) (combine names results)).
  assert (Hneq : (k =? "__proto__") = false).
  { apply String.eqb_neq. intros ->. apply Hk. now left. }
  unfold assign. cbn [to_string]. rewrite Hneq. cbn [andb].
  apply (IH results {| own := set_own k v (own o); proto := proto o |}).
  intros Hin. apply Hk. now right.
Qed.

(** Properties that hold objects are all written by [JSON.stringify]. *)
Lemma json_members_objects (m : list (string * value)) :
  Forall (fun entry => is_object (snd entry) = true) m -> json_members m = m.
Proof.
  induction 1 as [|[k v] m Hv _ IH]; [reflexivity|].
  cbn [json_members]. rewrite IH. now destruct v.
Qed.

Lemma set_own_objects (k : string) (v : value) (m : list (string * value)) :
  is_object v = true ->
  Forall (fun entry => is_object (snd entry) = true) m ->
  Forall (fun entry => is_object (snd entry) = true) (set_own k v m).
Proof.
  intros Hv. induction 1 as [|[k0 v0] m H0 Hm IH]; cbn [set_own].
  - now repeat constructor.
  - destruct (k0 =? k); constructor; assumption.
Qed.

Lemma set_all_objects (entries m : list (string * value)) :
  Forall (fun entry => is_object (snd entry) = true) entries ->
  Forall (fun entry => is_object (snd entry) = true) m ->
  Forall (fun entry => is_object (snd entry) = true) (set_all m entries).
Proof.
  intros He. revert m. induction He as [|[k v] entries Hv _ IH]; intros m Hm.
  - exact Hm.
  - apply (IH (set_own k v m)), set_own_objects; assumption.
Qed.

End OwnProperties.

Section Launch.

Variables (world : nat -> upstream) (githubToken : value).

Lemma launch_nth (repos : list value) (index j : nat) :
  nth_error (launch world index repos githubToken) j
  = option_map (fun repo => getRepoInfo repo githubToken (world (index + j)))
               (nth_error repos j).
Proof.
  revert index j. induction repos as [|repo repos IH]; intros index [|j];
    cbn [launch nth_error option_map]; try reflexivity.
  - now rewrite Nat.add_0_r.
  - rewrite IH. now rewrite Nat.add_succ_comm.
Qed.

Lemma launch_all_resolve (repos : list value) (index : nat) :
  Forall (fun repo => converts repo = true) repos ->
  promise_all (map fst (launch world index repos githubToken))
  = Resolved (map resolved_value
                  (map fst (launch world index repos githubToken))).
Proof.
  intros H. revert index. induction H as [|repo repos Hc _ IH]; intros index;
    cbn [launch map promise_all]; [reflexivity|].
  destruct (getRepoInfo_settles repo githubToken (world index) Hc)
    as (v & t & -> & _).
  cbn [fst resolved_value]. now rewrite IH.
Qed.

Lemma launch_objects (repos : list value) (index : nat) :
  Forall (fun repo => converts repo = true) repos ->
  Forall (fun v => is_object v = true)
         (map resolved_value (map fst (launch world index repos githubToken))).
Proof.
  intros H. revert index. induction H as [|repo repos Hc _ IH]; intros index;
    cbn [launch map]; constructor; [|apply IH].
  destruct (getRepoInfo_object repo githubToken (world index) Hc)
    as (props & t & ->).
  reflexivity.
Qed.

Lemma strings_convert (names : list string) :
  Forall (fun repo => converts repo = true) (map VStr names).
Proof. induction names; constructor; [reflexivity|assumption]. Qed.

Lemma launch_length (repos : list value) (index : nat) :
  List.length (launch world index repos githubToken) = List.length repos.
Proof.
  revert index. induction repos; intros index; cbn [launch List.length];
    [reflexivity|]. now rewrite IHrepos.
Qed.

End Launch.

Lemma nth_error_combine {X Y : Type} (xs : list X) (ys : list Y) (j : nat) :
  nth_error (combine xs ys) j
  = match nth_error xs j, nth_error ys j with
    | Some x, Some y => Some (x, y)
    | _, _ => None
    end.
Proof.
  revert ys j. induction xs as [|x xs IH]; intros [|y ys] [|j];
    cbn [combine nth_error]; try reflexivity.
  - now destruct (nth_error xs j).
  - apply IH.
Qed.

Lemma Forall_combine_snd {X Y : Type} (P : Y -> Prop) (xs : list X) (ys : list Y) :
  Forall P ys -> Forall (fun entry => P (snd entry)) (combine xs ys).
Proof.
  intros H. revert xs. induction H as [|y ys Hy _ IH]; intros [|x xs];
    cbn [combine]; constructor; [exact Hy|apply IH].
Qed.

Lemma map_fst_combine {X Y : Type} (xs : list X) (ys : list Y) :
  List.length xs = List.length ys -> map fst (combine xs ys) = xs.
Proof.
  revert ys. induction xs as [|x xs IH]; intros [|y ys] H; try discriminate;
    [reflexivity|].
  cbn [combine map fst]. f_equal. apply IH. now injection H.
Qed.

(** X1.  The bulk route on a list of strings none of which is
    [__proto__]: the answer is 200 and its object, every property of
    which [JSON.stringify] writes, has one key per distinct string,
    holding what the call of [getRepoInfo] for the last occurrence of
    that string, with the token of the environment, resolved to. *)
Theorem bulk_route_maps_each_repo
        (repos : list string) (env : js_env) (world : nat -> upstream) :
  ~ In "__proto__" repos ->
  exists repoInfoMap traces,
    onRequest (post_request "/api/repos-info"
                            (VObj [ ("repos", VArr (map VStr repos)) ]))
              env world
    = (Respond {| resp_status := 200;
                  resp_headers := [ ("Content-Type", "application/json");
                                    ("Cache-Control", "public, max-age=3600") ];
                  payload := VObj repoInfoMap |}, traces) /\
    json_members repoInfoMap = repoInfoMap /\
    NoDup (map fst repoInfoMap) /\
    (forall repo, In repo (map fst repoInfoMap) <-> In repo repos) /\
    (forall repo info,
        own_property repo repoInfoMap = Some info ->
        exists index,
          nth_error repos index = Some repo /\
          (forall later, index < later -> nth_error repos later <> Some repo) /\
          fst (getRepoInfo (VStr repo) (GITHUB_TOKEN env) (world index))
          = Resolved info).
Proof.
  intros Hproto.
  set (runs := launch world 0 (map VStr repos) (GITHUB_TOKEN env)).
  set (results := map resolved_value (map fst runs)).
  assert (Hlen : List.length repos = List.length results).
  { unfold results, runs. now rewrite !length_map, launch_length, length_map. }
  assert (Hres : forall j repo,
             nth_error repos j = Some repo ->
             nth_error results j
             = Some (resolved_value
                       (fst (getRepoInfo (VStr repo) (GITHUB_TOKEN env) (world j))))).
  { intros j repo Hj. unfold results, runs.
    now rewrite !nth_error_map, launch_nth, nth_error_map, Hj. }
  exists (set_all [] (combine repos results)), (map snd runs).
  split; [|split; [|split; [|split]]].
  - unfold onRequest, post_request, repos_info_try.
    cbn [pathname method body String.eqb Ascii.eqb Bool.eqb negb destructure get
         own_property truthy is_array orb elements].
    fold runs. unfold runs at 1.
    rewrite launch_all_resolve by apply strings_convert. fold runs results.
    unfold build_map.
    destruct (build_map_own repos results empty_object Hproto) as (m & -> & ->).
    reflexivity.
  - apply json_members_objects, set_all_objects; [|constructor].
    apply (Forall_combine_snd (fun v => is_object v = true)).
    unfold results, runs. apply launch_objects, strings_convert.
  - apply set_all_NoDup. constructor.
  - intros repo. rewrite set_all_keys, map_fst_combine by assumption.
    cbn [map In]. tauto.
  - intros repo info H.
    apply set_all_property in H as [(j & Hj & Hlast)|[H _]]; [|discriminate].
    rewrite nth_error_combine in Hj.
    destruct (nth_error repos j) as [repo'|] eqn:Hrepo; [|discriminate].
    rewrite (Hres _ _ Hrepo) in Hj. injection Hj as -> <-.
    exists j. split; [exact Hrepo|]. split.
    + intros later Hlt Hlater.
      eapply (Hlast later); [exact Hlt|].
      rewrite nth_error_combine, Hlater, (Hres _ _ Hlater). reflexivity.
    + destruct (getRepoInfo_settles (VStr repo) (GITHUB_TOKEN env) (world j) eq_refl)
        as (v & t & -> & _).
      reflexivity.
Qed.

Lemma bulk_route_maps_each_repo_witness :
  ~ In "__proto__" [ "a/b"; "c/d"; "a/b" ] /\
  exists repoInfoMap traces,
    onRequest (post_request "/api/repos-info"
                            (VObj [ ("repos", VArr [ VStr "a/b"; VStr "c/d"; VStr "a/b" ]) ]))
              {| GITHUB_TOKEN := VStr "token" |} (fun _ => not_found)
    = (Respond {| resp_status := 200;
                  resp_headers := [ ("Content-Type", "application/json");
                                    ("Cache-Control", "public, max-age=3600") ];
                  payload := VObj repoInfoMap |}, traces) /\
    forall repo, In repo (map fst repoInfoMap) <-> In repo [ "a/b"; "c/d"; "a/b" ].
Proof.
  assert (H : ~ In "__proto__" [ "a/b"; "c/d"; "a/b" ]).
  { intros [H|[H|[H|[]]]]; discriminate. }
  split; [exact H|].
  destruct (bulk_route_maps_each_repo [ "a/b"; "c/d"; "a/b" ]
              {| GITHUB_TOKEN := VStr "token" |} (fun _ => not_found) H)
    as (m & traces & E & _ & _ & Hkeys & _).
  exists m, traces. split; [exact E|exact Hkeys].
Defined.

(** ** Failures of [getRepoInfo], stage by stage *)

(** X3.  For a token and a default branch that have a text: when the
    metadata call succeeded with metadata other than [null] and the
    commit-list response has a status outside 200-299, the call
    resolves to the degraded record with
    [GitHub API error fetching commits: <status>], after exactly the two
    requests. *)
Theorem commits_failure_degrades
        (repoFullName : string) (githubToken : value) (up : upstream)
        (token sha : string)
        (repoResponse commitsResponse : fetch_response) (repoData : value) :
  to_string githubToken = inr token ->
  up (repo_request (normalize repoFullName) token) = inr repoResponse ->
  ok repoResponse = true ->
  json repoResponse = inr repoData ->
  is_nullish repoData = false ->
  to_string (opt_get repoData "default_branch") = inr sha ->
  up (commits_request (normalize repoFullName) sha token) = inr commitsResponse ->
  ok commitsResponse = false ->
  getRepoInfo (VStr repoFullName) githubToken up
  = (Resolved (VObj [ ("name", VStr repoFullName);
                      ("error", VStr ("GitHub API error fetching commits: " ++
                                      N_to_string (status commitsResponse)));
                      ("last_updated", VNull) ]),
     [ repo_request (normalize repoFullName) token;
       commits_request (normalize repoFullName) sha token ]).
Proof.
  intros Ht H1 H2 H3 H4 Hb H5 H6.
  exact (stage_commits_status _ _ _ _ Ht _ H1 H2 _ H3 H4 _ Hb _ H5 H6).
Qed.

Lemma commits_failure_degrades_witness :
  getRepoInfo (VStr "octocat/Hello-World.git") (VStr "token") empty_repository
  = (Resolved (VObj [ ("name", VStr "octocat/Hello-World.git");
                      ("error", VStr "GitHub API error fetching commits: 409");
                      ("last_updated", VNull) ]),
     [ {| url := "https://api.github.com/repos/octocat/Hello-World";
          headers := api_headers "token" |};
       {| url := "https://api.github.com/repos/octocat/Hello-World/commits?per_page=1&sha=master";
          headers := api_headers "token" |} ]).
Proof.
  exact (commits_failure_degrades
           "octocat/Hello-World.git" (VStr "token") empty_repository
           "token" "master"
           {| status := 200; json := inr sample_repo |}
           {| status := 409;
              json := inr (VObj [ ("message", VStr "Git Repository is empty.") ]) |}
           sample_repo eq_refl eq_refl eq_refl eq_refl eq_refl eq_refl eq_refl eq_refl).
Defined.

(** X4.  An exception at the metadata stage is turned into the degraded
    record carrying its message, and no commit-list request follows:
    when [fetch] rejects, when [json()] rejects on a successful
    response, and when the metadata is the JSON value [null] (the read
    of [default_branch] throws).  The request carries the text of the
    token. *)
Theorem metadata_exception_degrades
        (repoFullName : string) (githubToken : value) (up : upstream)
        (token : string) :
  to_string githubToken = inr token ->
  let request := repo_request (normalize repoFullName) token in
  (forall e,
      up request = inl e ->
      getRepoInfo (VStr repoFullName) githubToken up
      = (Resolved (degraded (VStr repoFullName) (message e)), [ request ])) /\
  (forall repoResponse e,
      up request = inr repoResponse ->
      ok repoResponse = true ->
      json repoResponse = inl e ->
      getRepoInfo (VStr repoFullName) githubToken up
      = (Resolved (degraded (VStr repoFullName) (message e)), [ request ])) /\
  (forall repoResponse repoData,
      up request = inr repoResponse ->
      ok repoResponse = true ->
      json repoResponse = inr repoData ->
      is_nullish repoData = true ->
      exists msg,
        getRepoInfo (VStr repoFullName) githubToken up
        = (Resolved (degraded (VStr repoFullName) msg), [ request ])).
Proof.
  intros Ht request. subst request. repeat split.
  - intros e H. exact (stage_fetch_rejected _ _ _ _ Ht _ H).
  - intros r e H1 H2 H3. exact (stage_json_rejected _ _ _ _ Ht _ H1 H2 _ H3).
  - intros r d H1 H2 H3 H4.
    exact (stage_metadata_nullish _ _ _ _ Ht _ H1 H2 _ H3 H4).
Qed.

Lemma metadata_exception_degrades_witness :
  getRepoInfo (VStr "octocat/Hello-World") VUndefined unreachable
  = (Resolved (VObj [ ("name", VStr "octocat/Hello-World");
                      ("error", VStr "fetch failed");
                      ("last_updated", VNull) ]),
     [ repo_request "octocat/Hello-World" "undefined" ])
  /\ getRepoInfo (VStr "octocat/Hello-World") VUndefined garbled
     = (Resolved (VObj [ ("name", VStr "octocat/Hello-World");
                         ("error", VStr "Unexpected token < in JSON");
                         ("last_updated", VNull) ]),
        [ repo_request "octocat/Hello-World" "undefined" ]).
Proof.
  split.
  - destruct (metadata_exception_degrades "octocat/Hello-World" VUndefined unreachable
                                          "undefined" eq_refl)
      as (H & _).
    exact (H (TypeError "fetch failed") eq_refl).
  - destruct (metadata_exception_degrades "octocat/Hello-World" VUndefined garbled
                                          "undefined" eq_refl)
      as (_ & H & _).
    exact (H {| status := 200; json := inl (Error "Unexpected token < in JSON") |}
             (Error "Unexpected token < in JSON") eq_refl eq_refl eq_refl).
Defined.

(** X5.  For a token and a default branch that have a text: an
    exception at the commit stage, after a successful metadata call,
    gives the degraded record with its message after exactly the two
    requests: when the second [fetch] rejects, when its [json()]
    rejects, and when the commit list is the JSON value [null]. *)
Theorem commits_exception_degrades
        (repoFullName : string) (githubToken : value) (up : upstream)
        (token sha : string)
        (repoResponse : fetch_response) (repoData : value) :
  to_string githubToken = inr token ->
  up (repo_request (normalize repoFullName) token) = inr repoResponse ->
  ok repoResponse = true ->
  json repoResponse = inr repoData ->
  is_nullish repoData = false ->
  to_string (opt_get repoData "default_branch") = inr sha ->
  let commitsRequest := commits_request (normalize repoFullName) sha token in
  let trace := [ repo_request (normalize repoFullName) token; commitsRequest ] in
  (forall e,
      up commitsRequest = inl e ->
      getRepoInfo (VStr repoFullName) githubToken up
      = (Resolved (degraded (VStr repoFullName) (message e)), trace)) /\
  (forall commitsResponse e,
      up commitsRequest = inr commitsResponse ->
      ok commitsResponse = true ->
      json commitsResponse = inl e ->
      getRepoInfo (VStr repoFullName) githubToken up
      = (Resolved (degraded (VStr repoFullName) (message e)), trace)) /\
  (forall commitsResponse commits,
      up commitsRequest = inr commitsResponse ->
      ok commitsResponse = true ->
      json commitsResponse = inr commits ->
      is_nullish commits = true ->
      exists msg,
        getRepoInfo (VStr repoFullName) githubToken up
        = (Resolved (degraded (VStr repoFullName) msg), trace)).
Proof.
  intros Ht H1 H2 H3 H4 Hb commitsRequest trace. subst trace commitsRequest.
  repeat split.
  - intros e H.
    exact (stage_commits_fetch_rejected _ _ _ _ Ht _ H1 H2 _ H3 H4 _ Hb _ H).
  - intros r e H5 H6 H7.
    exact (stage_commits_json_rejected _ _ _ _ Ht _ H1 H2 _ H3 H4 _ Hb _ H5 H6 _ H7).
  - intros r c H5 H6 H7 H8.
    exact (stage_commits_nullish _ _ _ _ Ht _ H1 H2 _ H3 H4 _ Hb _ H5 H6 _ H7 H8).
Qed.

Lemma commits_exception_degrades_witness :
  getRepoInfo (VStr "octocat/Hello-World") (VStr "token") commits_unreachable
  = (Resolved (VObj [ ("name", VStr "octocat/Hello-World");
                      ("error", VStr "fetch failed");
                      ("last_updated", VNull) ]),
     [ repo_request "octocat/Hello-World" "token";
       commits_request "octocat/Hello-World" "master" "token" ]).
Proof.
  destruct (commits_exception_degrades
              "octocat/Hello-World" (VStr "token") commits_unreachable
              "token" "master"
              {| status := 200; json := inr sample_repo |} sample_repo
              eq_refl eq_refl eq_refl eq_refl eq_refl eq_refl) as (H & _).
  exact (H (TypeError "fetch failed") eq_refl).
Defined.

(** X6.  A reference that is not a string (the bulk route passes the
    elements of [repos] as they come) makes line 23, 24 or 28 throw
    before any request.  When the reference has a text, the call
    resolves to the degraded record naming that value.  When it has
    none (an object with a property [toString] of its own, or an array
    holding one), the template literal of line 82 throws in the [catch]
    and the call rejects with that error. *)
Theorem non_string_reference_degrades
        (repoFullName githubToken : value) (up : upstream) :
  (forall s, repoFullName <> VStr s) ->
  (converts repoFullName = true ->
   exists msg,
     getRepoInfo repoFullName githubToken up
     = (Resolved (VObj [ ("name", repoFullName);
                         ("error", VStr msg);
                         ("last_updated", VNull) ]), [])) /\
  (forall e,
      to_string repoFullName = inl e ->
      getRepoInfo repoFullName githubToken up = (Rejected e, [])).
Proof.
  intros Hn. split.
  - intros Hc. now apply getRepoInfo_not_a_string.
  - intros e He. now apply getRepoInfo_rejects.
Qed.

Lemma non_string_reference_degrades_witness :
  (forall s, VNum "42" <> VStr s) /\
  (forall s, VArr [ VObj [ ("toString", VNum "1") ] ] <> VStr s) /\
  (exists msg,
      getRepoInfo (VNum "42") (VStr "token") (sample_upstream [])
      = (Resolved (VObj [ ("name", VNum "42");
                          ("error", VStr msg);
                          ("last_updated", VNull) ]), [])) /\
  getRepoInfo (VArr [ VObj [ ("toString", VNum "1") ] ]) (VStr "token")
              (sample_upstream [])
  = (Rejected (TypeError "Cannot convert object to primitive value"), []).
Proof.
  assert (H : forall s, VNum "42" <> VStr s) by discriminate.
  assert (H' : forall s, VArr [ VObj [ ("toString", VNum "1") ] ] <> VStr s)
    by discriminate.
  split; [exact H|]. split; [exact H'|]. split.
  - exact (proj1 (non_string_reference_degrades (VNum "42") (VStr "token")
                                                (sample_upstream []) H) eq_refl).
  - exact (proj2 (non_string_reference_degrades
                    (VArr [ VObj [ ("toString", VNum "1") ] ]) (VStr "token")
                    (sample_upstream []) H')
                 (TypeError "Cannot convert object to primitive value") eq_refl).
Defined.

(** X7.  For a token and a default branch that have a text: metadata
    without an owner ([undefined] or [null]) never yields a record:
    both calls having succeeded, line 76 (or line 72, on a [null]
    commit list) throws, and the call resolves to the degraded record
    after the two requests. *)
Theorem metadata_without_owner_degrades
        (repoFullName : string) (githubToken : value) (up : upstream)
        (token sha : string)
        (repoResponse commitsResponse : fetch_response)
        (repoData commits : value) :
  to_string githubToken = inr token ->
  up (repo_request (normalize repoFullName) token) = inr repoResponse ->
  ok repoResponse = true ->
  json repoResponse = inr repoData ->
  is_nullish repoData = false ->
  to_string (opt_get repoData "default_branch") = inr sha ->
  up (commits_request (normalize repoFullName) sha token) = inr commitsResponse ->
  ok commitsResponse = true ->
  json commitsResponse = inr commits ->
  is_nullish (opt_get repoData "owner") = true ->
  exists msg,
    getRepoInfo (VStr repoFullName) githubToken up
    = (Resolved (VObj [ ("name", VStr repoFullName);
                        ("error", VStr msg);
                        ("last_updated", VNull) ]),
       [ repo_request (normalize repoFullName) token;
         commits_request (normalize repoFullName) sha token ]).
Proof.
  intros Ht H1 H2 H3 H4 Hb H5 H6 H7 H8.
  destruct (is_nullish commits) eqn:H9.
  - exact (stage_commits_nullish _ _ _ _ Ht _ H1 H2 _ H3 H4 _ Hb _ H5 H6 _ H7 H9).
  - exact (stage_owner_nullish _ _ _ _ Ht _ H1 H2 _ H3 H4 _ Hb _ H5 H6 _ H7 H9 H8).
Qed.

Lemma metadata_without_owner_degrades_witness :
  exists msg,
    getRepoInfo (VStr "octocat/Hello-World") (VStr "token") ownerless
    = (Resolved (VObj [ ("name", VStr "octocat/Hello-World");
                        ("error", VStr msg);
                        ("last_updated", VNull) ]),
       [ repo_request "octocat/Hello-World" "token";
         commits_request "octocat/Hello-World" "master" "token" ]).
Proof.
  exact (metadata_without_owner_degrades
           "octocat/Hello-World" (VStr "token") ownerless "token" "master"
           {| status := 200;
              json := inr (VObj [ ("name", VStr "Hello-World");
                                  ("default_branch", VStr "master") ]) |}
           {| status := 200; json := inr (VArr sample_commits) |}
           (VObj [ ("name", VStr "Hello-World"); ("default_branch", VStr "master") ])
           (VArr sample_commits)
           eq_refl eq_refl eq_refl eq_refl eq_refl eq_refl eq_refl eq_refl
           eq_refl eq_refl).
Defined.

(** X8.  A full record is returned only from success: if a call for a
    string resolves to a value with the ten fields, then the token and
    the metadata's default branch had a text, the upstream answered
    both the metadata request and the commit-list request for that
    branch with a 2xx status and JSON, and the value is the record
    assembled from those two documents. *)
Theorem full_record_only_from_success
        (repoFullName : string) (githubToken : value) (up : upstream)
        (info : value) (t : trace) :
  getRepoInfo (VStr repoFullName) githubToken up = (Resolved info, t) ->
  is_repository_info info = true ->
  exists token sha repoResponse commitsResponse repoData commits,
    to_string githubToken = inr token /\
    up (repo_request (normalize repoFullName) token) = inr repoResponse /\
    ok repoResponse = true /\
    json repoResponse = inr repoData /\
    to_string (opt_get repoData "default_branch") = inr sha /\
    up (commits_request (normalize repoFullName) sha token) = inr commitsResponse /\
    ok commitsResponse = true /\
    json commitsResponse = inr commits /\
    is_nullish (opt_get repoData "owner") = false /\
    info = assembled_record repoData commits /\
    t = [ repo_request (normalize repoFullName) token;
          commits_request (normalize repoFullName) sha token ].
Proof.
  intros H Hfull.
  destruct (getRepoInfo_cases repoFullName githubToken up)
    as [(e & _ & E)
       |(token & Ht & [[msg E]
                      |[(msg & b & E)
                       |(r1 & r2 & d & c & sha & H1 & H2 & H3 & _ & Hb & H5 & H6
                         & H7 & _ & H9 & E)]])];
    rewrite E in H; injection H as <- <-; try discriminate.
  exists token, sha, r1, r2, d, c. repeat (split; [assumption|]).
  split; reflexivity.
Qed.

Lemma full_record_only_from_success_witness :
  exists repoResponse repoData,
    sample_upstream sample_commits (repo_request "octocat/Hello-World" "token")
    = inr repoResponse /\
    ok repoResponse = true /\
    json repoResponse = inr repoData /\
    fst (getRepoInfo (VStr "octocat/Hello-World") (VStr "token")
                     (sample_upstream sample_commits))
    = Resolved (assembled_record repoData (VArr sample_commits)).
Proof.
  destruct (getRepoInfo (VStr "octocat/Hello-World") (VStr "token")
                        (sample_upstream sample_commits)) as [o t] eqn:E.
  assert (Ho : o = Resolved (assembled_record sample_repo (VArr sample_commits)))
    by (vm_compute in E; now injection E as <- _).
  subst o.
  destruct (full_record_only_from_success
              "octocat/Hello-World" (VStr "token") (sample_upstream sample_commits)
              _ t E eq_refl)
    as (token & sha & r1 & r2 & d & c & Ht & H1 & H2 & H3 & _ & _ & _ & _ & _ & _ & _).
  injection Ht as <-.
  exists r1, d. repeat (split; [assumption|]).
  cbn [fst]. f_equal.
  change (sample_upstream sample_commits
            (repo_request (normalize "octocat/Hello-World") "token"))
    with (@inr js_error _ {| status := 200; json := inr sample_repo |}) in H1.
  injection H1 as <-. cbn [json] in H3. injection H3 as <-. reflexivity.
Defined.

(** X9.  One call issues at most two requests.  Each is made for a
    string reference and with a token that has a text; the address
    handed to [fetch] is, as a text,
    [https://api.github.com/repos/] followed by the normalized path,
    or that followed by [/commits?per_page=1&sha=] and the text of a
    branch; its headers are the client agent, [Accept] and
    [Authorization: Bearer] followed by the text of the token.  A call
    for a string with such a token issues the metadata request
    first. *)
Theorem getRepoInfo_requests
        (repoFullName githubToken : value) (up : upstream) :
  List.length (snd (getRepoInfo repoFullName githubToken up)) <= 2 /\
  (forall r,
      In r (snd (getRepoInfo repoFullName githubToken up)) ->
      exists s token,
        repoFullName = VStr s /\
        to_string githubToken = inr token /\
        headers r = [ ("User-Agent", "YackSuite-Tool-Status-Checker");
                      ("Accept", "application/vnd.github.v3+json");
                      ("Authorization", "Bearer " ++ token) ] /\
        (url r = "https://api.github.com/repos/" ++ normalize s \/
         exists sha,
           url r = "https://api.github.com/repos/" ++ normalize s ++
                   "/commits?per_page=1&sha=" ++ sha)) /\
  (forall s token,
      repoFullName = VStr s ->
      to_string githubToken = inr token ->
      hd_error (snd (getRepoInfo repoFullName githubToken up))
      = Some (repo_request (normalize s) token)).
Proof.
  split; [|split].
  - destruct (snd (getRepoInfo repoFullName githubToken up)) as [|r1 [|r2 [|r3 l]]] eqn:E;
      cbn [List.length]; try lia.
    exfalso.
    assert (H : In r1 (snd (getRepoInfo repoFullName githubToken up)))
      by (rewrite E; now left).
    destruct (getRepoInfo_trace _ _ _ _ H) as (s & token & -> & _).
    destruct (getRepoInfo_cases s githubToken up)
      as [(e & _ & E')
         |(token' & _ & [[msg E']
                        |[(msg & b & E')
                         |(? & ? & ? & ? & ? & _ & _ & _ & _ & _ & _ & _ & _ & _ & _ & E')]])];
      rewrite E' in E; discriminate.
  - intros r H. exact (getRepoInfo_trace _ _ _ _ H).
  - intros s token -> Ht.
    destruct (getRepoInfo_first_request s githubToken up token Ht) as [rest ->].
    reflexivity.
Qed.

Lemma getRepoInfo_requests_witness :
  In (commits_request "octocat/Hello-World" "master" "token")
     (snd (getRepoInfo (VStr "octocat/Hello-World") (VStr "token")
                       (sample_upstream [])))
  /\ exists s token,
      VStr "octocat/Hello-World" = VStr s /\
      to_string (VStr "token") = inr token /\
      headers (commits_request "octocat/Hello-World" "master" "token")
      = [ ("User-Agent", "YackSuite-Tool-Status-Checker");
          ("Accept", "application/vnd.github.v3+json");
          ("Authorization", "Bearer " ++ token) ].
Proof.
  assert (H : In (commits_request "octocat/Hello-World" "master" "token")
                 (snd (getRepoInfo (VStr "octocat/Hello-World") (VStr "token")
                                   (sample_upstream [])))).
  { right. left. reflexivity. }
  split; [exact H|].
  destruct (getRepoInfo_requests (VStr "octocat/Hello-World") (VStr "token")
                                 (sample_upstream [])) as (_ & Hall & _).
  destruct (Hall _ H) as (s & token & Hs & Ht & Hh & _).
  exists s, token. split; [exact Hs|]. split; [exact Ht|exact Hh].
Defined.

(** X21.  Metadata whose [default_branch] has no text (an object with
    a property [toString] of its own, or an array holding one) stops
    the call at the template literal of line 51: it resolves to the
    degraded record with the message of the conversion error, the
    metadata request being the only one issued. *)
Theorem branch_without_text_degrades
        (repoFullName : string) (githubToken : value) (up : upstream)
        (token : string) (repoResponse : fetch_response) (repoData : value)
        (e : js_error) :
  to_string githubToken = inr token ->
  up (repo_request (normalize repoFullName) token) = inr repoResponse ->
  ok repoResponse = true ->
  json repoResponse = inr repoData ->
  is_nullish repoData = false ->
  to_string (opt_get repoData "default_branch") = inl e ->
  getRepoInfo (VStr repoFullName) githubToken up
  = (Resolved (VObj [ ("name", VStr repoFullName);
                      ("error", VStr (message e));
                      ("last_updated", VNull) ]),
     [ repo_request (normalize repoFullName) token ]).
Proof.
  intros Ht H1 H2 H3 H4 Hb.
  exact (stage_branch_rejected _ _ _ _ Ht _ H1 H2 _ H3 H4 _ Hb).
Qed.

Lemma branch_without_text_degrades_witness :
  getRepoInfo (VStr "octocat/Hello-World") (VStr "token") odd_branch
  = (Resolved (VObj [ ("name", VStr "octocat/Hello-World");
                      ("error", VStr "Cannot convert object to primitive value");
                      ("last_updated", VNull) ]),
     [ {| url := "https://api.github.com/repos/octocat/Hello-World";
          headers := api_headers "token" |} ]).
Proof.
  exact (branch_without_text_degrades
           "octocat/Hello-World" (VStr "token") odd_branch "token"
           {| status := 200;
              json := inr (VObj [ ("name", VStr "Hello-World");
                                  ("default_branch",
                                   VObj [ ("toString", VNum "1") ]) ]) |}
           (VObj [ ("name", VStr "Hello-World");
                   ("default_branch", VObj [ ("toString", VNum "1") ]) ])
           (TypeError "Cannot convert object to primitive value")
           eq_refl eq_refl eq_refl eq_refl eq_refl eq_refl).
Defined.

(** ** More on the routes *)

Lemma settle_responds (x : outcome response * list trace) :
  exists r, settle x = (Respond r, snd x).
Proof. destruct x as [[r|e] t]; now eexists. Qed.

Lemma launch_In (world : nat -> upstream) (githubToken : value)
      (repos : list value) (index : nat) (x : outcome value * trace) :
  In x (launch world index repos githubToken) ->
  exists j repo, In repo repos /\ x = getRepoInfo repo githubToken (world j).
Proof.
  revert index. induction repos as [|repo repos IH]; intros index; cbn [launch In].
  - intros [].
  - intros [<-|H].
    + exists index, repo. split; [now left|reflexivity].
    + destruct (IH _ H) as (j & repo' & Hin & ->).
      exists j, repo'. split; [now right|reflexivity].
Qed.

(** What [repoInfoMap] holds was assigned: under the text of a key, the
    result paired with it. *)
Lemma build_map_entries (entries : list (value * value)) (o repoInfoMap : js_object)
      (k : string) (v : value) :
  assign_all o entries = inr repoInfoMap ->
  own_property k (own repoInfoMap) = Some v ->
  (exists key, In (key, v) entries /\ to_string key = inr k)
  \/ own_property k (own o) = Some v.
Proof.
  revert o. induction entries as [|[key v0] entries IH]; intros o E H.
  - injection E as <-. now right.
  - cbn [assign_all] in E.
    destruct (assign o key v0) as [e|o1] eqn:Ea; [discriminate|].
    destruct (IH _ E H) as [(key' & Hin & Hk)|Ho].
    + left. exists key'. split; [now right|exact Hk].
    + unfold assign in Ea. destruct (to_string key) as [e|text] eqn:Et;
        [discriminate|].
      injection Ea as <-.
      destruct ((text =? "__proto__") && reaches_proto_setter o).
      * right. destruct v0; exact Ho.
      * cbn [own] in Ho. rewrite set_own_property in Ho.
        destruct (String.eqb_spec text k) as [Hk|_]; [|now right].
        injection Ho as ->. left. exists key. split; [now left|].
        now rewrite <- Hk.
Qed.

(** Assignments under keys that have a text do not throw. *)
Lemma assign_all_converts (entries : list (value * value)) (o : js_object) :
  Forall (fun entry => converts (fst entry) = true) entries ->
  exists repoInfoMap, assign_all o entries = inr repoInfoMap.
Proof.
  intros H. revert o. induction H as [|[key v] entries Hc _ IH]; intros o.
  - now exists o.
  - cbn [assign_all]. cbn [fst] in Hc.
    apply converts_text in Hc as [text Ht]. unfold assign. rewrite Ht.
    apply IH.
Qed.

Lemma Forall_combine_fst {X Y : Type} (P : X -> Prop) (xs : list X) (ys : list Y) :
  Forall P xs -> Forall (fun entry => P (fst entry)) (combine xs ys).
Proof.
  intros H. revert ys. induction H as [|x xs Hx _ IH]; intros [|y ys];
    cbn [combine]; constructor; [exact Hx|apply IH].
Qed.

(** The first element without a text makes its call reject, and with
    it the whole [Promise.all]. *)
Lemma launch_some_rejects (world : nat -> upstream) (githubToken : value)
      (repos : list value) (index : nat) :
  Exists (fun repo => converts repo = false) repos ->
  exists j repo e,
    nth_error repos j = Some repo /\
    to_string repo = inl e /\
    promise_all (map fst (launch world index repos githubToken)) = Rejected e.
Proof.
  revert index. induction repos as [|repo repos IH]; intros index H.
  - inversion H.
  - cbn [launch map promise_all].
    destruct (to_string repo) as [e|text] eqn:Et.
    + rewrite (getRepoInfo_rejects _ _ _ _ Et). cbn [fst].
      exists 0, repo, e. now repeat split.
    + assert (Hc : converts repo = true) by (apply converts_text; now exists text).
      destruct (getRepoInfo_settles repo githubToken (world index) Hc)
        as (v & t & -> & _).
      cbn [fst].
      assert (H' : Exists (fun repo => converts repo = false) repos).
      { inversion H as [? ? H0|? ? H0]; subst; [congruence|exact H0]. }
      destruct (IH (S index) H') as (j & repo' & e & Hj & He & ->).
      exists (S j), repo', e. now repeat split.
Qed.

(** X10.  The bulk route on any array.  When every element has a text
    (strings, numbers, booleans, [null], and objects and arrays free of
    a property [toString] of their own), the answer is 200: one call of
    [getRepoInfo] is launched per element, duplicates included, with
    the token of the environment, and every entry of the object
    answered is the result of the call for an element whose text is the
    key.  When some element has none, its call rejects and the answer
    is 500 with the message of that conversion error. *)
Theorem bulk_route_any_array
        (request : http_request) (env : js_env) (world : nat -> upstream)
        (parsed : value) (repos : list value) :
  pathname request = "/api/repos-info" ->
  method request = "POST" ->
  body request = inr parsed ->
  is_nullish parsed = false ->
  get parsed "repos" = inr (VArr repos) ->
  (Forall (fun repo => converts repo = true) repos ->
   exists repoInfoMap traces,
     onRequest request env world
     = (Respond {| resp_status := 200;
                   resp_headers := [ ("Content-Type", "application/json");
                                     ("Cache-Control", "public, max-age=3600") ];
                   payload := VObj repoInfoMap |}, traces) /\
     List.length traces = List.length repos /\
     (forall index repo,
         nth_error repos index = Some repo ->
         nth_error traces index
         = Some (snd (getRepoInfo repo (GITHUB_TOKEN env) (world index)))) /\
     (forall key info,
         own_property key repoInfoMap = Some info ->
         exists index repo,
           nth_error repos index = Some repo /\
           to_string repo = inr key /\
           fst (getRepoInfo repo (GITHUB_TOKEN env) (world index)) = Resolved info)) /\
  (Exists (fun repo => converts repo = false) repos ->
   exists index repo e,
     nth_error repos index = Some repo /\
     to_string repo = inl e /\
     fst (onRequest request env world)
     = Respond {| resp_status := 500;
                  resp_headers := [ ("Content-Type", "application/json") ];
                  payload := VObj [ ("error", VStr (message e)) ] |}).
Proof.
  intros Hpath Hmethod Hbody Hnull Hget.
  set (runs := launch world 0 repos (GITHUB_TOKEN env)).
  set (results := map resolved_value (map fst runs)).
  assert (Hd : destructure parsed "repos" = inr (VArr repos))
    by (destruct parsed; try discriminate; exact Hget).
  assert (Hon : onRequest request env world
                = settle
                    match promise_all (map fst runs) with
                    | Rejected e => (Rejected e, map snd runs)
                    | Resolved repoInfoResults =>
                        match build_map repos repoInfoResults with
                        | inl e => (Rejected e, map snd runs)
                        | inr repoInfoMap =>
                            (Resolved {| resp_status := 200;
                                         resp_headers :=
                                           [ ("Content-Type", "application/json");
                                             ("Cache-Control", CACHE_CONTROL) ];
                                         payload := VObj (own repoInfoMap) |},
                             map snd runs)
                        end
                    end).
  { unfold onRequest. rewrite Hpath. cbn [String.eqb Ascii.eqb Bool.eqb].
    unfold repos_info_try. rewrite Hmethod, Hbody, Hd.
    cbn [String.eqb Ascii.eqb Bool.eqb negb truthy is_array orb elements].
    reflexivity. }
  rewrite Hon. split.
  - intros Hall.
    destruct (assign_all_converts (combine repos results) empty_object
                (Forall_combine_fst (fun repo => converts repo = true) _ _ Hall))
      as [repoInfoMap Hmap].
    exists (own repoInfoMap), (map snd runs).
    split; [|split; [|split]].
    + unfold runs at 1. rewrite (launch_all_resolve _ _ _ _ Hall).
      fold runs results. unfold build_map. rewrite Hmap. reflexivity.
    + unfold runs. now rewrite length_map, launch_length.
    + intros index repo H. unfold runs.
      now rewrite nth_error_map, launch_nth, H.
    + intros key info H.
      destruct (build_map_entries _ _ _ _ _ Hmap H) as [(repo & Hin & Hk)|H'];
        [|discriminate].
      apply In_nth_error in Hin as [index Hin].
      rewrite nth_error_combine in Hin.
      destruct (nth_error repos index) as [repo'|] eqn:Hrepo; [|discriminate].
      unfold results, runs in Hin.
      rewrite !nth_error_map, launch_nth, Hrepo in Hin.
      cbn [option_map Nat.add] in Hin. injection Hin as -> <-.
      exists index, repo. split; [exact Hrepo|]. split; [exact Hk|].
      assert (Hc : converts repo = true) by (apply converts_text; now exists key).
      destruct (getRepoInfo_settles repo (GITHUB_TOKEN env) (world index) Hc)
        as (v & t & -> & _).
      reflexivity.
  - intros Hsome.
    destruct (launch_some_rejects world (GITHUB_TOKEN env) repos 0 Hsome)
      as (index & repo & e & Hj & He & Hrej).
    exists index, repo, e. split; [exact Hj|]. split; [exact He|].
    fold runs in Hrej. rewrite Hrej. reflexivity.
Qed.

Lemma bulk_route_any_array_witness :
  (Forall (fun repo => converts repo = true) [ VNum "42"; VNull; VStr "a/b" ] /\
   exists repoInfoMap traces,
     onRequest (post_request "/api/repos-info"
                             (VObj [ ("repos", VArr [ VNum "42"; VNull; VStr "a/b" ]) ]))
               {| GITHUB_TOKEN := VStr "token" |} (fun _ => not_found)
     = (Respond {| resp_status := 200;
                   resp_headers := [ ("Content-Type", "application/json");
                                     ("Cache-Control", "public, max-age=3600") ];
                   payload := VObj repoInfoMap |}, traces) /\
     List.length traces = 3) /\
  (Exists (fun repo => converts repo = false)
          [ VStr "a/b"; VObj [ ("toString", VNum "1") ] ] /\
   exists index repo e,
     nth_error [ VStr "a/b"; VObj [ ("toString", VNum "1") ] ] index = Some repo /\
     to_string repo = inl e /\
     fst (onRequest (post_request "/api/repos-info"
                       (VObj [ ("repos",
                                VArr [ VStr "a/b"; VObj [ ("toString", VNum "1") ] ]) ]))
                    {| GITHUB_TOKEN := VStr "token" |} (fun _ => not_found))
     = Respond {| resp_status := 500;
                  resp_headers := [ ("Content-Type", "application/json") ];
                  payload := VObj [ ("error", VStr (message e)) ] |}).
Proof.
  assert (Hall : Forall (fun repo => converts repo = true)
                        [ VNum "42"; VNull; VStr "a/b" ])
    by (repeat constructor).
  assert (Hsome : Exists (fun repo => converts repo = false)
                         [ VStr "a/b"; VObj [ ("toString", VNum "1") ] ])
    by (right; left; reflexivity).
  split.
  - split; [exact Hall|].
    destruct (proj1 (bulk_route_any_array
                (post_request "/api/repos-info"
                              (VObj [ ("repos", VArr [ VNum "42"; VNull; VStr "a/b" ]) ]))
                {| GITHUB_TOKEN := VStr "token" |} (fun _ => not_found)
                (VObj [ ("repos", VArr [ VNum "42"; VNull; VStr "a/b" ]) ])
                [ VNum "42"; VNull; VStr "a/b" ]
                eq_refl eq_refl eq_refl eq_refl eq_refl) Hall)
      as (m & traces & E & Hlen & _).
    exists m, traces. split; [exact E|exact Hlen].
  - split; [exact Hsome|].
    exact (proj2 (bulk_route_any_array
             (post_request "/api/repos-info"
                (VObj [ ("repos",
                         VArr [ VStr "a/b"; VObj [ ("toString", VNum "1") ] ]) ]))
             {| GITHUB_TOKEN := VStr "token" |} (fun _ => not_found)
             (VObj [ ("repos", VArr [ VStr "a/b"; VObj [ ("toString", VNum "1") ] ]) ])
             [ VStr "a/b"; VObj [ ("toString", VNum "1") ] ]
             eq_refl eq_refl eq_refl eq_refl eq_refl) Hsome).
Defined.

(** X11.  A POST to the bulk route whose body cannot be read as JSON,
    or is the JSON value [null], is answered by the [catch]: 500 with
    the message of the exception under [error], JSON content type, no
    cache header, and no call to the upstream. *)
Theorem bulk_route_unreadable_body
        (request : http_request) (env : js_env) (world : nat -> upstream) :
  pathname request = "/api/repos-info" ->
  method request = "POST" ->
  (forall e,
      body request = inl e ->
      onRequest request env world
      = (Respond {| resp_status := 500;
                    resp_headers := [ ("Content-Type", "application/json") ];
                    payload := VObj [ ("error", VStr (message e)) ] |}, [])) /\
  (forall parsed,
      body request = inr parsed ->
      is_nullish parsed = true ->
      exists msg,
        onRequest request env world
        = (Respond {| resp_status := 500;
                      resp_headers := [ ("Content-Type", "application/json") ];
                      payload := VObj [ ("error", VStr msg) ] |}, [])).
Proof.
  intros Hpath Hmethod. split.
  - intros e Hbody. unfold onRequest. rewrite Hpath.
    cbn [String.eqb Ascii.eqb Bool.eqb].
    unfold repos_info_try. rewrite Hmethod, Hbody. reflexivity.
  - intros parsed Hbody Hnull. unfold onRequest. rewrite Hpath.
    cbn [String.eqb Ascii.eqb Bool.eqb].
    unfold repos_info_try. rewrite Hmethod, Hbody.
    destruct parsed; try discriminate; now eexists.
Qed.

Lemma bulk_route_unreadable_body_witness :
  onRequest {| pathname := "/api/repos-info"; method := "POST"; searchParams := [];
               body := inl (Error "Unexpected end of JSON input") |}
            {| GITHUB_TOKEN := VStr "token" |} (fun _ => not_found)
  = (Respond {| resp_status := 500;
                resp_headers := [ ("Content-Type", "application/json") ];
                payload := VObj [ ("error", VStr "Unexpected end of JSON input") ] |},
     []).
Proof.
  destruct (bulk_route_unreadable_body
              {| pathname := "/api/repos-info"; method := "POST"; searchParams := [];
                 body := inl (Error "Unexpected end of JSON input") |}
              {| GITHUB_TOKEN := VStr "token" |} (fun _ => not_found)
              eq_refl eq_refl) as (H & _).
  exact (H (Error "Unexpected end of JSON input") eq_refl).
Defined.

(** X12.  Every response the handler builds, on either route and on
    every path through it, has a status among 200, 400, 405 and 500 and
    [Content-Type: application/json]; it carries
    [Cache-Control: public, max-age=3600] exactly when the status is
    200, and [Allow: POST] exactly when it is 405. *)
Theorem response_headers_invariant
        (request : http_request) (env : js_env) (world : nat -> upstream)
        (r : response) (traces : list trace) :
  onRequest request env world = (Respond r, traces) ->
  In (resp_status r) [ 200; 400; 405; 500 ]%N /\
  header "Content-Type" (resp_headers r) = Some "application/json" /\
  header "Cache-Control" (resp_headers r)
  = (if (resp_status r =? 200)%N then Some "public, max-age=3600" else None) /\
  header "Allow" (resp_headers r)
  = (if (resp_status r =? 405)%N then Some "POST" else None).
Proof.
  unfold onRequest, repos_info_try, repo_info_try.
  destruct (pathname request =? "/api/repos-info").
  - destruct (negb (method request =? "POST"));
      [|destruct (body request) as [e|parsed];
        [|destruct (destructure parsed "repos") as [e|repos];
          [|destruct (negb (truthy repos) || negb (is_array repos));
            [|destruct (promise_all _); [destruct (build_map _ _)|]]]]];
      cbn [settle]; intros H; injection H as <- _; cbn; tauto.
  - destruct (pathname request =? "/api/repo-info"); [|discriminate].
    destruct (searchParams_get "repo" (searchParams request)) as [[|c u]|];
      try destruct (getRepoInfo _ _ _) as [[v|e] t];
      cbn [settle]; intros H; injection H as <- _; cbn; tauto.
Qed.

Lemma response_headers_invariant_witness :
  exists r traces,
    onRequest (get_request "/api/repos-info" []) {| GITHUB_TOKEN := VStr "token" |}
              (fun _ => not_found) = (Respond r, traces) /\
    resp_status r = 405%N /\
    header "Cache-Control" (resp_headers r) = None /\
    header "Allow" (resp_headers r) = Some "POST".
Proof.
  destruct (onRequest (get_request "/api/repos-info" [])
                      {| GITHUB_TOKEN := VStr "token" |} (fun _ => not_found))
    as [h traces] eqn:E.
  assert (Hh : exists r, h = Respond r /\ resp_status r = 405%N)
    by (vm_compute in E; injection E as <- _; eexists; split; reflexivity).
  destruct Hh as (r & -> & Hs).
  destruct (response_headers_invariant _ _ _ _ _ E) as (_ & _ & Hc & Ha).
  rewrite Hs in Hc, Ha. exists r, traces. repeat split; assumption.
Defined.

(** X13.  The single route answers 400, without calling the upstream,
    exactly when [repo] is missing or empty, and otherwise 200 with
    what the one call of [getRepoInfo] (made without a token) resolved
    to; it never answers 405 or 500.  The method, the body and the
    environment play no part: two requests to the route with the same
    parameters get the same answer. *)
Theorem single_route_status
        (request : http_request) (env : js_env) (world : nat -> upstream) :
  pathname request = "/api/repo-info" ->
  (exists r traces,
      onRequest request env world = (Respond r, traces) /\
      ((resp_status r = 400%N /\ traces = [] /\
        (searchParams_get "repo" (searchParams request) = None \/
         searchParams_get "repo" (searchParams request) = Some ""))
       \/
       (resp_status r = 200%N /\
        exists repoUrl,
          searchParams_get "repo" (searchParams request) = Some repoUrl /\
          repoUrl <> "" /\
          getRepoInfo (VStr repoUrl) VUndefined (world 0)
          = (Resolved (payload r), hd [] traces)))) /\
  (forall request' env',
      pathname request' = "/api/repo-info" ->
      searchParams request' = searchParams request ->
      onRequest request' env' world = onRequest request env world).
Proof.
  intros Hpath. split.
  - unfold onRequest. rewrite Hpath. cbn [String.eqb Ascii.eqb Bool.eqb].
    unfold repo_info_try.
    destruct (searchParams_get "repo" (searchParams request)) as [[|c u]|] eqn:E.
    + eexists _, _. split; [reflexivity|]. left. cbn. auto.
    + destruct (getRepoInfo_settles (VStr (String c u)) VUndefined (world 0) eq_refl)
        as (v & t & Hv & _).
      rewrite Hv. eexists _, _. split; [reflexivity|]. right.
      split; [reflexivity|]. exists (String c u).
      split; [reflexivity|]. split; [discriminate|exact Hv].
    + eexists _, _. split; [reflexivity|]. left. cbn. auto.
  - intros request' env' Hpath' Hparams.
    unfold onRequest, repo_info_try. now rewrite Hpath, Hpath', Hparams.
Qed.

Lemma single_route_status_witness :
  pathname {| pathname := "/api/repo-info"; method := "DELETE";
              searchParams := [ ("repo", "octocat/Hello-World") ];
              body := inr VNull |} = "/api/repo-info"
  /\ onRequest {| pathname := "/api/repo-info"; method := "DELETE";
                  searchParams := [ ("repo", "octocat/Hello-World") ];
                  body := inr VNull |}
               {| GITHUB_TOKEN := VUndefined |} (fun _ => not_found)
     = onRequest (get_request "/api/repo-info" [ ("repo", "octocat/Hello-World") ])
                 {| GITHUB_TOKEN := VStr "token" |} (fun _ => not_found).
Proof.
  split; [reflexivity|].
  destruct (single_route_status
              (get_request "/api/repo-info" [ ("repo", "octocat/Hello-World") ])
              {| GITHUB_TOKEN := VStr "token" |} (fun _ => not_found) eq_refl)
    as (_ & H).
  apply H; reflexivity.
Defined.

(** X14.  Dispatch: a request is passed on to [next()], with no call to
    the upstream, exactly when its path is neither [/api/repos-info]
    nor [/api/repo-info]; on those two paths the handler always answers
    itself. *)
Theorem passes_through_other_paths
        (request : http_request) (env : js_env) (world : nat -> upstream) :
  (pathname request <> "/api/repos-info" ->
   pathname request <> "/api/repo-info" ->
   onRequest request env world = (Next, [])) /\
  (fst (onRequest request env world) = Next ->
   pathname request <> "/api/repos-info" /\
   pathname request <> "/api/repo-info").
Proof.
  unfold onRequest. split.
  - intros H1 H2. apply String.eqb_neq in H1, H2. now rewrite H1, H2.
  - destruct (String.eqb_spec (pathname request) "/api/repos-info") as [_|H1].
    + destruct (settle_responds (repos_info_try request (GITHUB_TOKEN env) world))
        as [r ->]. discriminate.
    + destruct (String.eqb_spec (pathname request) "/api/repo-info") as [_|H2].
      * destruct (settle_responds (repo_info_try request world)) as [r ->].
        discriminate.
      * now split.
Qed.

Lemma passes_through_other_paths_witness :
  ("/static/logo.png" <> "/api/repos-info" /\ "/static/logo.png" <> "/api/repo-info")
  /\ onRequest (get_request "/static/logo.png" [ ("repo", "octocat/Hello-World") ])
               {| GITHUB_TOKEN := VStr "token" |} (fun _ => not_found)
     = (Next, []).
Proof.
  assert (H1 : "/static/logo.png" <> "/api/repos-info") by discriminate.
  assert (H2 : "/static/logo.png" <> "/api/repo-info") by discriminate.
  split; [now split|].
  destruct (passes_through_other_paths
              (get_request "/static/logo.png" [ ("repo", "octocat/Hello-World") ])
              {| GITHUB_TOKEN := VStr "token" |} (fun _ => not_found)) as (H & _).
  exact (H H1 H2).
Defined.

(** X15.  A failed look-up on the single route is still answered 200,
    with the cache header: when the upstream refuses the metadata
    request with status [S], the body is the degraded record with
    [GitHub API error: S], and that one request, sent with
    [Bearer undefined], is all that was issued. *)
Theorem single_route_failed_lookup
        (request : http_request) (env : js_env) (world : nat -> upstream)
        (repoUrl : string) (repoResponse : fetch_response) :
  pathname request = "/api/repo-info" ->
  searchParams_get "repo" (searchParams request) = Some repoUrl ->
  repoUrl <> "" ->
  world 0 (repo_request (normalize repoUrl) "undefined") = inr repoResponse ->
  ok repoResponse = false ->
  onRequest request env world
  = (Respond {| resp_status := 200;
                resp_headers := [ ("Content-Type", "application/json");
                                  ("Cache-Control", "public, max-age=3600") ];
                payload := VObj [ ("name", VStr repoUrl);
                                  ("error", VStr ("GitHub API error: " ++
                                                  N_to_string (status repoResponse)));
                                  ("last_updated", VNull) ] |},
     [ [ {| url := "https://api.github.com/repos/" ++ normalize repoUrl;
            headers := [ ("User-Agent", "YackSuite-Tool-Status-Checker");
                         ("Accept", "application/vnd.github.v3+json");
                         ("Authorization", "Bearer undefined") ] |} ] ]).
Proof.
  intros Hpath Hrepo Hne Hfetch Hok.
  unfold onRequest. rewrite Hpath. cbn [String.eqb Ascii.eqb Bool.eqb].
  unfold repo_info_try. rewrite Hrepo.
  destruct repoUrl as [|c u]; [contradiction|].
  now rewrite (stage_status _ VUndefined _ "undefined" eq_refl _ Hfetch Hok).
Qed.

Lemma single_route_failed_lookup_witness :
  onRequest (get_request "/api/repo-info" [ ("repo", "https://github.com/octocat/nope/") ])
            {| GITHUB_TOKEN := VStr "token" |} (fun _ => not_found)
  = (Respond {| resp_status := 200;
                resp_headers := [ ("Content-Type", "application/json");
                                  ("Cache-Control", "public, max-age=3600") ];
                payload := VObj [ ("name", VStr "https://github.com/octocat/nope/");
                                  ("error", VStr "GitHub API error: 404");
                                  ("last_updated", VNull) ] |},
     [ [ {| url := "https://api.github.com/repos/octocat/nope";
            headers := [ ("User-Agent", "YackSuite-Tool-Status-Checker");
                         ("Accept", "application/vnd.github.v3+json");
                         ("Authorization", "Bearer undefined") ] |} ] ]).
Proof.
  assert (Hne : "https://github.com/octocat/nope/" <> "") by discriminate.
  exact (single_route_failed_lookup
           (get_request "/api/repo-info" [ ("repo", "https://github.com/octocat/nope/") ])
           {| GITHUB_TOKEN := VStr "token" |} (fun _ => not_found)
           "https://github.com/octocat/nope/"
           {| status := 404; json := inl (Error "Unexpected token") |}
           eq_refl eq_refl Hne eq_refl eq_refl).
Defined.

(** X16.  Which credential leaves with which route: every request the
    bulk route causes carries [Authorization: Bearer] followed by the
    text of [env.GITHUB_TOKEN], and every request the single route
    causes carries [Bearer undefined], whatever the environment
    holds. *)
Theorem credential_per_route
        (request : http_request) (env : js_env) (world : nat -> upstream)
        (t : trace) (r : fetch_request) :
  In t (snd (onRequest request env world)) ->
  In r t ->
  exists token,
    to_string (if pathname request =? "/api/repos-info"
               then GITHUB_TOKEN env
               else VUndefined) = inr token /\
    header "Authorization" (headers r) = Some ("Bearer " ++ token).
Proof.
  unfold onRequest.
  destruct (pathname request =? "/api/repos-info").
  - destruct (settle_responds (repos_info_try request (GITHUB_TOKEN env) world))
      as [x ->]. cbn [snd]. unfold repos_info_try.
    destruct (negb (method request =? "POST")); [intros []|].
    destruct (body request) as [e|parsed]; [intros []|].
    destruct (destructure parsed "repos") as [e|repos]; [intros []|].
    destruct (negb (truthy repos) || negb (is_array repos)); [intros []|].
    assert (H : forall runs : list (outcome value * trace),
               (forall x, In x runs ->
                          exists j repo, x = getRepoInfo repo (GITHUB_TOKEN env) (world j)) ->
               In t (map snd runs) -> In r t ->
               exists token,
                 to_string (GITHUB_TOKEN env) = inr token /\
                 header "Authorization" (headers r) = Some ("Bearer " ++ token)).
    { intros runs Hruns Ht Hr. apply in_map_iff in Ht as (run & <- & Hrun).
      destruct (Hruns _ Hrun) as (j & repo & ->).
      destruct (getRepoInfo_trace _ _ _ _ Hr) as (s & token & _ & Ht & -> & _).
      exists token. split; [exact Ht|reflexivity]. }
    destruct (promise_all _) as [results|e];
      [destruct (build_map _ _) as [e|repoInfoMap]|]; cbn [snd]; apply H;
      intros y Hy; apply launch_In in Hy as (index & repo & _ & ->);
      now exists index, repo.
  - destruct (pathname request =? "/api/repo-info"); [|intros []].
    destruct (settle_responds (repo_info_try request world)) as [x ->].
    unfold repo_info_try.
    destruct (searchParams_get "repo" (searchParams request)) as [[|c u]|];
      try (intros []).
    destruct (getRepoInfo (VStr (String c u)) VUndefined (world 0))
      as [[v|e] t0] eqn:E; cbn [snd]; intros [<-|[]] Hr;
      replace t0 with (snd (getRepoInfo (VStr (String c u)) VUndefined (world 0)))
        in Hr by now rewrite E.
    all: destruct (getRepoInfo_trace _ _ _ _ Hr) as (s & token & _ & Ht & -> & _);
      exists token; split; [exact Ht|reflexivity].
Qed.

Lemma credential_per_route_witness :
  exists t r,
    In t (snd (onRequest (post_request "/api/repos-info"
                                       (VObj [ ("repos", VArr [ VStr "a/b" ]) ]))
                         {| GITHUB_TOKEN := VStr "token" |} (fun _ => not_found)))
    /\ In r t
    /\ header "Authorization" (headers r) = Some "Bearer token".
Proof.
  exists [ repo_request "a/b" "token" ], (repo_request "a/b" "token").
  assert (Ht : In [ repo_request "a/b" "token" ]
                  (snd (onRequest (post_request "/api/repos-info"
                                                (VObj [ ("repos", VArr [ VStr "a/b" ]) ]))
                                  {| GITHUB_TOKEN := VStr "token" |}
                                  (fun _ => not_found))))
    by (left; reflexivity).
  assert (Hr : In (repo_request "a/b" "token") [ repo_request "a/b" "token" ])
    by (left; reflexivity).
  split; [exact Ht|]. split; [exact Hr|].
  destruct (credential_per_route _ _ _ _ _ Ht Hr) as (token & Htoken & H).
  injection Htoken as <-. exact H.
Defined.


(** ** The key [__proto__] *)

(** While every value assigned is a record without a property
    [__proto__], assignments under [__proto__] keep reaching the
    setter, and [repoInfoMap] never gets an own property of that
    name. *)
Lemma build_map_no_proto (entries : list (value * value)) (o repoInfoMap : js_object) :
  Forall (fun entry => exists props,
              snd entry = VObj props /\ own_property "__proto__" props = None)
         entries ->
  own_property "__proto__" (own o) = None ->
  reaches_proto_setter o = true ->
  assign_all o entries = inr repoInfoMap ->
  own_property "__proto__" (own repoInfoMap) = None.
Proof.
  intros He. revert o.
  induction He as [|[key v] entries (props & Hv & Hprops) _ IH];
    intros o Hown Hreach E.
  - now injection E as <-.
  - cbn [assign_all] in E. cbn [snd] in Hv. subst v.
    unfold assign in E. destruct (to_string key) as [e|text]; [discriminate|].
    rewrite Hreach, andb_true_r in E.
    destruct (String.eqb_spec text "__proto__") as [_|Hk];
      refine (IH _ _ _ E); unfold reaches_proto_setter; cbn [own proto].
    + exact Hown.
    + now rewrite Hown, Hprops.
    + rewrite set_own_property. apply String.eqb_neq in Hk. now rewrite Hk.
    + rewrite set_own_property. apply String.eqb_neq in Hk. rewrite Hk.
      exact Hreach.
Qed.

Lemma launch_plain (world : nat -> upstream) (githubToken : value)
      (repos : list value) (index : nat) (results : list value) :
  promise_all (map fst (launch world index repos githubToken)) = Resolved results ->
  Forall (fun entry => exists props,
              snd entry = VObj props /\ own_property "__proto__" props = None)
         (combine repos results).
Proof.
  revert index results. induction repos as [|repo repos IH]; intros index results H;
    [constructor|].
  cbn [launch map promise_all] in H.
  destruct (getRepoInfo repo githubToken (world index)) as [[v|e] t] eqn:E;
    cbn [fst] in H; [|discriminate].
  destruct (promise_all (map fst (launch world (S index) repos githubToken)))
    as [rest|e] eqn:Erest; [|discriminate].
  injection H as <-. cbn [combine]. constructor; [|exact (IH _ _ Erest)].
  destruct (getRepoInfo_plain _ _ _ _ _ E) as (props & -> & Hprops).
  now exists props.
Qed.

Lemma json_members_no_proto (members : list (string * value)) :
  own_property "__proto__" members = None ->
  ~ In "__proto__" (map fst (json_members members)).
Proof.
  induction members as [|[k v] l IH]; cbn [own_property json_members]; [tauto|].
  destruct (String.eqb_spec k "__proto__") as [->|Hk]; [discriminate|].
  intros H. specialize (IH H).
  destruct v; cbn [map fst In]; tauto.
Qed.

(** X20.  Whatever the bulk route answers, the object in the body has
    no own property named [__proto__]: in a 200 answer an element
    whose text is [__proto__] has no entry, and [JSON.stringify] writes
    no such key. *)
Theorem proto_key_never_answered
        (request : http_request) (env : js_env) (world : nat -> upstream)
        (r : response) (traces : list trace) :
  pathname request = "/api/repos-info" ->
  onRequest request env world = (Respond r, traces) ->
  exists members,
    payload r = VObj members /\
    own_property "__proto__" members = None /\
    ~ In "__proto__" (map fst (json_members members)).
Proof.
  intros Hpath. unfold onRequest. rewrite Hpath.
  cbn [String.eqb Ascii.eqb Bool.eqb]. unfold repos_info_try.
  assert (Hsmall : forall msg,
             exists members,
               VObj [ ("error", VStr msg) ] = VObj members /\
               own_property "__proto__" members = None /\
               ~ In "__proto__" (map fst (json_members members))).
  { intros msg. eexists. split; [reflexivity|]. split; [reflexivity|].
    intros [H|[]]; discriminate. }
  destruct (negb (method request =? "POST"));
    [cbn [settle]; intros H; injection H as <- _; apply Hsmall|].
  destruct (body request) as [e|parsed];
    [cbn [settle]; intros H; injection H as <- _; apply Hsmall|].
  destruct (destructure parsed "repos") as [e|repos];
    [cbn [settle]; intros H; injection H as <- _; apply Hsmall|].
  destruct (negb (truthy repos) || negb (is_array repos));
    [cbn [settle]; intros H; injection H as <- _; apply Hsmall|].
  cbv zeta.
  destruct (promise_all (map fst (launch world 0 (elements repos) (GITHUB_TOKEN env))))
    as [results|e] eqn:Eall;
    [|cbn [settle]; intros H; injection H as <- _; apply Hsmall].
  destruct (build_map (elements repos) results) as [e|repoInfoMap] eqn:Emap;
    [cbn [settle]; intros H; injection H as <- _; apply Hsmall|].
  cbn [settle]. intros H. injection H as <- _. cbn [payload].
  assert (Hnone : own_property "__proto__" (own repoInfoMap) = None).
  { unfold build_map in Emap.
    refine (build_map_no_proto _ _ _ (launch_plain _ _ _ _ _ Eall) _ _ Emap);
      reflexivity. }
  exists (own repoInfoMap). split; [reflexivity|]. split; [exact Hnone|].
  now apply json_members_no_proto.
Qed.

Lemma proto_key_never_answered_witness :
  exists repoInfoMap traces,
    onRequest (post_request "/api/repos-info"
                            (VObj [ ("repos", VArr [ VStr "a/b"; VStr "__proto__" ]) ]))
              {| GITHUB_TOKEN := VStr "token" |} (fun _ => not_found)
    = (Respond {| resp_status := 200;
                  resp_headers := [ ("Content-Type", "application/json");
                                    ("Cache-Control", "public, max-age=3600") ];
                  payload := VObj repoInfoMap |}, traces) /\
    own_property "__proto__" repoInfoMap = None.
Proof.
  destruct (onRequest (post_request "/api/repos-info"
                         (VObj [ ("repos", VArr [ VStr "a/b"; VStr "__proto__" ]) ]))
                      {| GITHUB_TOKEN := VStr "token" |} (fun _ => not_found))
    as [h traces] eqn:E.
  assert (Hh : exists repoInfoMap,
             h = Respond {| resp_status := 200;
                            resp_headers := [ ("Content-Type", "application/json");
                                              ("Cache-Control", "public, max-age=3600") ];
                            payload := VObj repoInfoMap |})
    by (vm_compute in E; injection E as <- _; eexists; reflexivity).
  destruct Hh as (repoInfoMap & ->).
  destruct (proto_key_never_answered
              (post_request "/api/repos-info"
                 (VObj [ ("repos", VArr [ VStr "a/b"; VStr "__proto__" ]) ]))
              _ _ _ _ eq_refl E) as (members & Hp & Hnone & _).
  cbn [payload] in Hp. injection Hp as <-.
  exists repoInfoMap, traces. split; [reflexivity|exact Hnone].
Defined.
